(** * Bank statement extractor: amount cleaning, column classification,
      table cleaning and per-document table collection

    A shallow embedding of [bank_statement_extractor_v1.py].

    - A Python [str] is a list of Unicode code points ([N]).
    - A table cell, as pdfplumber hands it over, is [None] or a [str]:
      [option pystr].
    - A pandas [DataFrame] is an object in a store; the program holds
      references to it.  [df.copy()] allocates, [df[col] = ...] writes
      through the reference.
    - pandas is taken with the behaviour of its 1.x/2.x releases (object
      columns, [astype(str)] turning [None] into the text [None]). *)

From Stdlib Require Import List NArith Bool Lia String Ascii DecimalNat.
From stdpp Require Import base list.
Import ListNotations.

Local Open Scope N_scope.

(** ** Python strings *)

Definition pystr := list N.

(** A literal written with ASCII characters only. *)
Definition cps (s : string) : pystr := map N_of_ascii (list_ascii_of_string s).

Definition dot : N := 46.
Definition comma : N := 44.
Definition minus : N := 45.
Definition fullwidth_comma : N := 65292. (* U+FF0C *)

Definition is_digit (c : N) : bool := (48 <=? c) && (c <=? 57).

(** The complement of the class [[^0-9.,\-]]: the characters [re.sub] keeps. *)
Definition amount_char (c : N) : bool :=
  is_digit c || (c =? dot) || (c =? comma) || (c =? minus).

(** [re.sub(r"[^0-9.,\-]", "", s)] *)
Definition re_sub_non_amount (s : pystr) : pystr := List.filter amount_char s.

(** [s.replace(old, new)] for one-character [old] and [new]. *)
Definition replace (old new : N) (s : pystr) : pystr :=
  map (fun c => if c =? old then new else c) s.

(** [s.count(c)] for a one-character [c]. *)
Definition count (c : N) (s : pystr) : nat :=
  length (List.filter (N.eqb c) s).

(** [s.split(sep)] for a one-character [sep]: never the empty list. *)
Fixpoint split (sep : N) (s : pystr) : list pystr :=
  match s with
  | [] => [[]]
  | c :: s' =>
      if c =? sep then [] :: split sep s'
      else match split sep s' with
           | p :: ps => (c :: p) :: ps
           | [] => [[c]]
           end
  end.

(** [''.join(parts)] *)
Definition join (parts : list pystr) : pystr := concat parts.

(** [str.isspace] on one code point: the whitespace [str.strip()] removes. *)
Definition is_space (c : N) : bool :=
  ((9 <=? c) && (c <=? 13)) || ((28 <=? c) && (c <=? 32))
  || (c =? 133) || (c =? 160) || (c =? 5760)
  || ((8192 <=? c) && (c <=? 8202))
  || (c =? 8232) || (c =? 8233) || (c =? 8239) || (c =? 8287) || (c =? 12288).

Fixpoint lstrip (s : pystr) : pystr :=
  match s with
  | c :: s' => if is_space c then lstrip s' else s
  | [] => []
  end.

Definition rstrip (s : pystr) : pystr := rev (lstrip (rev s)).

(** [s.strip()] *)
Definition strip (s : pystr) : pystr := rstrip (lstrip s).

(** ** Cells *)

Definition cell := option pystr.

(** [pd.isna] on a cell. *)
Definition isna (v : cell) : bool :=
  match v with None => true | Some _ => false end.

(** [str(v)] *)
Definition str (v : cell) : pystr :=
  match v with None => cps "None" | Some s => s end.

(** ** [clean_amount] *)

(** Lines 36-38: [parts[:-1]] is [removelast parts], [parts[-1]] is the
    last element ([split] never returns the empty list). *)
Definition keep_last_period (cleaned : pystr) : pystr :=
  if (1 <? count dot cleaned)%nat then
    let parts := split dot cleaned in
    join (removelast parts) ++ [dot] ++ List.last parts []
  else cleaned.

Definition clean_amount (amount_str : cell) : cell :=
  if isna amount_str then amount_str
  else
    let amount_str := str amount_str in
    let cleaned := re_sub_non_amount amount_str in
    let cleaned := replace fullwidth_comma comma cleaned in
    let cleaned := keep_last_period cleaned in
    let cleaned := strip cleaned in
    Some cleaned.

(** The same pipeline with line 34 (the full-width comma substitution)
    deleted. *)
Definition clean_amount_without_substitution (amount_str : cell) : cell :=
  if isna amount_str then amount_str
  else
    let amount_str := str amount_str in
    let cleaned := re_sub_non_amount amount_str in
    let cleaned := keep_last_period cleaned in
    let cleaned := strip cleaned in
    Some cleaned.

(** [s] with every occurrence of [c] removed. *)
Definition remove_char (c : N) (s : pystr) : pystr :=
  List.filter (fun x => negb (x =? c)) s.

(** ** Header labels and keyword matching *)

(** A header cell is a cell; [str(col)] turns it into text. *)
Definition label := cell.

Fixpoint pystr_eqb (a b : pystr) : bool :=
  match a, b with
  | [], [] => true
  | x :: a', y :: b' => (x =? y) && pystr_eqb a' b'
  | _, _ => false
  end.

Definition label_eqb (a b : label) : bool :=
  match a, b with
  | None, None => true
  | Some x, Some y => pystr_eqb x y
  | _, _ => false
  end.

Fixpoint startswith (p s : pystr) : bool :=
  match p, s with
  | [], _ => true
  | x :: p', y :: s' => (x =? y) && startswith p' s'
  | _ :: _, [] => false
  end.

(** [needle in hay] on strings. *)
Fixpoint contains (needle hay : pystr) : bool :=
  startswith needle hay
  || match hay with
     | [] => false
     | _ :: hay' => contains needle hay'
     end.

(** Line 60; the second keyword is U+65E5 U+671F. *)
Definition date_col_keywords : list pystr :=
  [cps "date"; [26085; 26399]].

(** Line 64; the last four keywords are U+652F U+51FA, U+5B58 U+5165,
    U+7D50 U+9918 and U+91D1 U+984D. *)
Definition amount_col_keywords : list pystr :=
  [cps "withdrawals"; cps "deposits"; cps "balance"; cps "amount";
   [25903; 20986]; [23384; 20837]; [32080; 39192]; [37329; 38989]].

(** [str.lower] on ASCII letters. *)
Definition ascii_lower_char (c : N) : N :=
  if (65 <=? c) && (c <=? 90) then c + 32 else c.

Definition ascii_lower (s : pystr) : pystr := map ascii_lower_char s.

(** Code points on which [str.lower] is known here: ASCII and the CJK
    unified ideographs (U+4E00 to U+9FFF), which have no case. *)
Definition plain_char (c : N) : bool :=
  (c <? 128) || ((19968 <=? c) && (c <=? 40959)).

(** ** Exceptions, diagnostics and the object store *)

Inductive exn := AttributeError | ValueError.

Inductive result (A : Type) :=
| Ok (a : A)
| Raise (e : exn).
Arguments Ok {A} a.
Arguments Raise {A} e.

(** One column per header position, each with [index] cells. *)
Record DataFrame := mkDataFrame {
  columns : list label;
  index : nat;
  data : list (list cell)
}.

(** The warnings and errors the table loop logs (lines 106, 135, 132);
    the [logger.info] lines and the prints are left out. *)
Inductive diag :=
| TableEmpty (page_num idx : nat)
| TableNoDataRows (page_num idx : nat)
| TableError (page_num idx : nat) (e : exn).

Abbreviation ref := nat.

Record world := mkWorld {
  store : list DataFrame;
  log : list diag
}.

(** A computation reads and writes the world and returns or raises; what
    it wrote before raising stays written. *)
Definition M (A : Type) : Type := world -> result A * world.

Definition raise {A} (e : exn) : M A := fun w => (Raise e, w).

#[global] Instance M_ret : MRet M := fun A a w => (Ok a, w).

#[global] Instance M_bind : MBind M := fun A B k m w =>
  match m w with
  | (Ok a, w') => k a w'
  | (Raise e, w') => (Raise e, w')
  end.

(** [try: body except Exception as e: handler(e)] *)
Definition try_except {A} (body : M A) (handler : exn -> M A) : M A :=
  fun w =>
    match body w with
    | (Ok a, w') => (Ok a, w')
    | (Raise e, w') => handler e w'
    end.

(** [for x in xs: body(x)] *)
Fixpoint for_each {A} (xs : list A) (body : A -> M unit) : M unit :=
  match xs with
  | [] => mret tt
  | x :: xs' => body x;; for_each xs' body
  end.

Definition empty_frame : DataFrame := mkDataFrame [] 0 [].

(** A reference always comes from an allocation, so the lookup succeeds. *)
Definition deref (w : world) (r : ref) : DataFrame :=
  default empty_frame (store w !! r).

Definition read (r : ref) : M DataFrame := fun w => (Ok (deref w r), w).

Definition alloc (d : DataFrame) : M ref :=
  fun w => (Ok (length (store w)), mkWorld (store w ++ [d]) (log w)).

(** A method that changes the object behind [r] in place, or raises and
    leaves it as it was. *)
Definition update (r : ref) (f : DataFrame -> result DataFrame) : M unit :=
  fun w =>
    match f (deref w r) with
    | Ok d' => (Ok tt, mkWorld (<[r := d']> (store w)) (log w))
    | Raise e => (Raise e, w)
    end.

(** [logger.warning] and [logger.error] *)
Definition emit (m : diag) : M unit :=
  fun w => (Ok tt, mkWorld (store w) (log w ++ [m])).

(** ** pandas *)

(** The width [lib.to_object_array] gives the cell matrix: that of the
    longest row. *)
Definition width (rows : list (list cell)) : nat :=
  foldr (fun row k => Nat.max (length row) k) 0%nat rows.

(** The cell matrix by column; a row that is too short is filled up with
    [None]. *)
Definition to_object_array (rows : list (list cell)) : list (list cell) :=
  map (fun j => map (fun row => nth j row None) rows) (seq 0 (width rows)).

(** [pd.DataFrame(rows, columns=header)] on a list of lists: the number
    of labels must be the width of the cell matrix, or [ValueError] is
    raised.  Without rows the frame has the labels and no cells. *)
Definition DataFrame_of_rows (rows : list (list cell)) (header : list label)
  : result DataFrame :=
  match rows with
  | [] => Ok (mkDataFrame header 0 (map (fun _ => []) header))
  | _ :: _ =>
      if Nat.eqb (length header) (width rows)
      then Ok (mkDataFrame header (length rows) (to_object_array rows))
      else Raise ValueError
  end.

Definition new_DataFrame (rows : list (list cell)) (header : list label) : M ref :=
  match DataFrame_of_rows rows header with
  | Ok d => alloc d
  | Raise e => raise e
  end.

(** [df.copy()] *)
Definition copy (df : ref) : M ref := d ← read df; alloc d.

(** The positions at which [col] is a label of the frame, counted from [i]. *)
Fixpoint positions_from (i : nat) (col : label) (cols : list label) : list nat :=
  match cols with
  | [] => []
  | c :: cols' =>
      if label_eqb c col then i :: positions_from (S i) col cols'
      else positions_from (S i) col cols'
  end.

Definition positions (col : label) (cols : list label) : list nat :=
  positions_from 0 col cols.

(** The cells of the column at position [p]. *)
Definition column_at (p : nat) (d : DataFrame) : list cell :=
  default [] (data d !! p).

(** [df[col] = values] for a label at the single position [p]. *)
Definition set_column_at (p : nat) (values : list cell) (d : DataFrame) : DataFrame :=
  mkDataFrame (columns d) (index d) (<[p := values]> (data d)).

(** Lines 72-74 for one [col].
    - [col] not a label: the guard of line 72 skips it.
    - [col] a label once: [df[col]] is a Series; every cell becomes
      [str(cell).strip()].
    - [col] a label more than once: [df[col]] is a DataFrame, which has
      no [.str]: [AttributeError]. *)
Definition clean_date_column (col : label) (d : DataFrame) : result DataFrame :=
  match positions col (columns d) with
  | [] => Ok d
  | [p] => Ok (set_column_at p (map (fun v => Some (strip (str v))) (column_at p d)) d)
  | _ :: _ :: _ => Raise AttributeError
  end.

(** Lines 80-81 for one [col].
    - [col] a label once: [Series.apply] calls [clean_amount] on every cell.
    - [col] a label more than once: [DataFrame.apply] calls [clean_amount]
      on a whole column, and [if pd.isna(column)] raises [ValueError];
      on a frame without rows [DataFrame.apply] swallows that and returns
      a copy, so nothing changes. *)
Definition clean_amount_column (col : label) (d : DataFrame) : result DataFrame :=
  match positions col (columns d) with
  | [] => Ok d
  | [p] => Ok (set_column_at p (map clean_amount (column_at p d)) d)
  | _ :: _ :: _ => if Nat.eqb (index d) 0 then Ok d else Raise ValueError
  end.

(** The cell in row [i] of the column at position [j]. *)
Definition cell_at (d : DataFrame) (i j : nat) : option cell :=
  column ← data d !! j; column !! i.

(** [d'] has the header and the shape of [d], and the cells of [d] in
    every column whose label is not [touched]. *)
Definition cleaned_from (touched : label -> bool) (d d' : DataFrame) : Prop :=
  columns d' = columns d
  /\ index d' = index d
  /\ length (data d') = length (data d)
  /\ (forall j, length <$> (data d' !! j) = length <$> (data d !! j))
  /\ (forall j col, columns d !! j = Some col -> touched col = false ->
                    data d' !! j = data d !! j).

Section Extractor.

(** [str.lower].  It is a library function over the whole of Unicode; the
    program is modelled for any function in its place, and where a
    property needs it, for any function that agrees with [ascii_lower]
    on text made of [plain_char]s. *)
Variable lower : pystr -> pystr.

(** [any(kw.lower() in str(col).lower() for kw in keywords)] *)
Definition matches_keyword (keywords : list pystr) (col : label) : bool :=
  existsb (fun kw => contains (lower kw) (lower (str col))) keywords.

Definition is_date_col : label -> bool := matches_keyword date_col_keywords.
Definition is_amount_col : label -> bool := matches_keyword amount_col_keywords.

(** ** [clean_table_data] *)

Definition clean_table_data (df : ref) : M ref :=
  df_cleaned ← copy df;
  d ← read df_cleaned;
  let date_cols := List.filter is_date_col (columns d) in
  let amount_cols := List.filter is_amount_col (columns d) in
  for_each date_cols (fun col => update df_cleaned (clean_date_column col));;
  for_each amount_cols (fun col => update df_cleaned (clean_amount_column col));;
  mret df_cleaned.

(** ** The table loop of [process_pdf_with_pdfplumber] *)

(** A raw table as [page.extract_tables()] returns it: a list of rows. *)
Definition grid := list (list cell).

(** Lines 105-136: one table of one page; [all_tables] is the list built
    so far and the result is the list afterwards. *)
Definition process_table (page_num idx : nat) (table_data : grid)
    (all_tables : list ref) : M (list ref) :=
  match table_data with
  | [] => emit (TableEmpty page_num idx);; mret all_tables
  | header :: rows =>
      if (1 <? length table_data)%nat then
        try_except
          (df ← new_DataFrame rows header;
           df_cleaned ← clean_table_data df;
           mret (all_tables ++ [df_cleaned]))
          (fun e => emit (TableError page_num idx e);; mret all_tables)
      else
        emit (TableNoDataRows page_num idx);; mret all_tables
  end.

(** Line 104: [for idx, table_data in enumerate(tables, start=1)] *)
Fixpoint process_tables (page_num idx : nat) (tables : list grid)
    (all_tables : list ref) : M (list ref) :=
  match tables with
  | [] => mret all_tables
  | table_data :: tables' =>
      all_tables' ← process_table page_num idx table_data all_tables;
      process_tables page_num (S idx) tables' all_tables'
  end.

(** Line 94: [for page_num, page in enumerate(pdf.pages, start=1)], each
    page given by the tables [page.extract_tables()] returned for it. *)
Fixpoint process_pages (page_num : nat) (pages : list (list grid))
    (all_tables : list ref) : M (list ref) :=
  match pages with
  | [] => mret all_tables
  | tables :: pages' =>
      all_tables' ← process_tables page_num 1 tables all_tables;
      process_pages (S page_num) pages' all_tables'
  end.

(** Lines 90-136: [all_tables] when the loops are over. *)
Definition extract_all_tables (pages : list (list grid)) : M (list ref) :=
  process_pages 1 pages [].

(** ** What the loops compute, as functions of the data alone *)

(** The frame that [for col in cols: step(col)] leaves behind, and the
    exception that stopped the loop, if one did. *)
Fixpoint run_columns (step : label -> DataFrame -> result DataFrame)
    (cols : list label) (d : DataFrame) : DataFrame * option exn :=
  match cols with
  | [] => (d, None)
  | col :: cols' =>
      match step col d with
      | Ok d' => run_columns step cols' d'
      | Raise e => (d, Some e)
      end
  end.

(** The copy [clean_table_data] works on, when it returns or raises. *)
Definition cleaned_frame (d : DataFrame) : DataFrame * option exn :=
  match run_columns clean_date_column (List.filter is_date_col (columns d)) d with
  | (d1, None) =>
      run_columns clean_amount_column (List.filter is_amount_col (columns d)) d1
  | (d1, Some e) => (d1, Some e)
  end.

(** The frames one raw table adds to [all_tables]. *)
Definition table_frames (table_data : grid) : list DataFrame :=
  match table_data with
  | [] => []
  | header :: rows =>
      if (1 <? length table_data)%nat then
        match DataFrame_of_rows rows header with
        | Ok d =>
            match cleaned_frame d with
            | (d', None) => [d']
            | (_, Some _) => []
            end
        | Raise _ => []
        end
      else []
  end.

(** The frames behind a list of references. *)
Definition frames (w : world) (refs : list ref) : list DataFrame :=
  map (deref w) refs.

(** A label that is classified (Date or Amount) and stands at more than
    one position of the header. *)
Definition classified (col : label) : bool := is_date_col col || is_amount_col col.

Definition duplicated (col : label) (cols : list label) : bool :=
  (1 <? length (positions col cols))%nat.

Definition no_classified_duplicate (d : DataFrame) : bool :=
  forallb (fun col => negb (classified col && duplicated col (columns d)))
          (columns d).

End Extractor.

(** [s] does not start with whitespace. *)
Definition starts_clean (s : pystr) : Prop :=
  match s with
  | c :: _ => is_space c = false
  | [] => True
  end.

(** ** What cleaning does to one cell *)

Section CellRules.

Variable lower : pystr -> pystr.

(** The cell [clean_table_data] leaves where [v] was, under the label
    [col]: line 74 if [col] is a Date label, then line 81 if [col] is an
    Amount label. *)
Definition cleaned_cell (col : label) (v : cell) : cell :=
  let v1 := if is_date_col lower col then Some (strip (str v)) else v in
  if is_amount_col lower col then clean_amount v1 else v1.

End CellRules.

(** ** The workbook: the rest of [process_pdf_with_pdfplumber] *)

(** The digits of a decimal number as text. *)
Fixpoint uint_cps (u : Decimal.uint) : pystr :=
  match u with
  | Decimal.Nil => []
  | Decimal.D0 u => 48%N :: uint_cps u
  | Decimal.D1 u => 49%N :: uint_cps u
  | Decimal.D2 u => 50%N :: uint_cps u
  | Decimal.D3 u => 51%N :: uint_cps u
  | Decimal.D4 u => 52%N :: uint_cps u
  | Decimal.D5 u => 53%N :: uint_cps u
  | Decimal.D6 u => 54%N :: uint_cps u
  | Decimal.D7 u => 55%N :: uint_cps u
  | Decimal.D8 u => 56%N :: uint_cps u
  | Decimal.D9 u => 57%N :: uint_cps u
  end.

(** [str(n)], as an f-string writes a number that is not negative. *)
Definition str_nat (n : nat) : pystr := uint_cps (Nat.to_uint n).

(** Lines 154 and 156: [f"Sheet_{idx+1}"[:31]]. *)
Definition sheet_name (idx : nat) : pystr :=
  firstn 31 (cps "Sheet_" ++ str_nat (idx + 1)).

(** Line 20. *)
Definition output_excel_folder : pystr := cps "output_files".

(** What the program asks of the spreadsheet writer: [pd.ExcelWriter]
    on a path, [df.to_excel] with a sheet name or without one, and the
    end of the [with] block, which closes the writer. *)
Inductive sink_call :=
| OpenWriter (excel_path : pystr)
| ToExcel (d : DataFrame) (sheet : option pystr)
| ExitWriter.

(** What lines 139-165 and lines 177-185 log. *)
Inductive note :=
| PdfError
| NoValidTables
| SheetNameRejected (sheet : pystr)
| ExcelSaved (excel_path : pystr)
| ExcelError
| FolderMissing
| NoPdfFiles.

(** What pdfplumber gives: [None] when the file cannot be opened, else
    for every page the tables [page.extract_tables()] returned, or
    [None] for a page on which it raised. *)
Definition pdf_source := option (list (option (list grid))).

Section Workbook.

Variable lower : pystr -> pystr.

(** [os.path.join], a library function. *)
Variable path_join : pystr -> pystr -> pystr.

(** The writer is outside the program: whether a call raises is given,
    for every call, by the calls made so far. *)
Variable sink_raises : list sink_call -> sink_call -> bool.

(** Lines 94-136 with a page that may fail: the loop stops at the first
    page whose extraction raises. *)
Fixpoint process_extracted_pages (page_num : nat)
    (pages : list (option (list grid))) (all_tables : list ref)
  : M (option (list ref)) :=
  match pages with
  | [] => mret (Some all_tables)
  | None :: _ => mret None
  | Some tables :: pages' =>
      all_tables' ← process_tables lower page_num 1 tables all_tables;
      process_extracted_pages (S page_num) pages' all_tables'
  end.

(** Lines 152-159: one sheet per table; a sheet the writer refuses by
    name is written again without a name, and if that raises too the
    loop is left.  The result says whether the loop came to its end. *)
Fixpoint write_sheets (w : world) (idx : nat) (all_tables : list ref)
    (calls : list sink_call) (notes : list note)
  : bool * list sink_call * list note :=
  match all_tables with
  | [] => (true, calls, notes)
  | df :: all_tables' =>
      let named := ToExcel (deref w df) (Some (sheet_name idx)) in
      if sink_raises calls named then
        let calls1 := calls ++ [named] in
        let notes1 := notes ++ [SheetNameRejected (sheet_name idx)] in
        let unnamed := ToExcel (deref w df) None in
        if sink_raises calls1 unnamed then (false, calls1 ++ [unnamed], notes1)
        else write_sheets w (S idx) all_tables' (calls1 ++ [unnamed]) notes1
      else write_sheets w (S idx) all_tables' (calls ++ [named]) notes
  end.

(** Lines 149-166.  The [with] block closes the writer when it is left,
    also when it is left by an exception. *)
Definition save_excel (w : world) (all_tables : list ref) (basename : pystr)
    (calls : list sink_call) : list pystr * list sink_call * list note :=
  let excel_path :=
    path_join output_excel_folder (basename ++ cps "_extracted.xlsx") in
  if sink_raises calls (OpenWriter excel_path)
  then ([], calls ++ [OpenWriter excel_path], [ExcelError])
  else
    match write_sheets w 0 all_tables (calls ++ [OpenWriter excel_path]) [] with
    | (true, calls1, notes) =>
        if sink_raises calls1 ExitWriter
        then ([], calls1 ++ [ExitWriter], notes ++ [ExcelError])
        else ([excel_path], calls1 ++ [ExitWriter], notes ++ [ExcelSaved excel_path])
    | (false, calls1, notes) =>
        ([], calls1 ++ [ExitWriter], notes ++ [ExcelError])
    end.

(** [process_pdf_with_pdfplumber(file_path, basename)], with the file
    given by what pdfplumber reads from it.  The result is the returned
    list of paths, the world, the calls made to the writer and the
    notes logged. *)
Definition process_pdf_with_pdfplumber (pdf : pdf_source) (basename : pystr)
    (w : world) (calls : list sink_call)
  : list pystr * world * list sink_call * list note :=
  match pdf with
  | None => ([], w, calls, [PdfError])
  | Some pages =>
      match process_extracted_pages 1 pages [] w with
      | (Ok (Some all_tables), w') =>
          match all_tables with
          | [] => ([], w', calls, [NoValidTables])
          | _ :: _ =>
              let '(paths, calls', notes) := save_excel w' all_tables basename calls in
              (paths, w', calls', notes)
          end
      | (Ok None, w') => ([], w', calls, [PdfError])
      | (Raise _, w') => ([], w', calls, [PdfError])
      end
  end.

End Workbook.

(** The calls that write [ds] under the names the program gives:
    Sheet_ and the place of the table, counted from [idx + 1]. *)
Fixpoint named_sheets (idx : nat) (ds : list DataFrame) : list sink_call :=
  match ds with
  | [] => []
  | d :: ds' => ToExcel d (Some (sheet_name idx)) :: named_sheets (S idx) ds'
  end.

Definition is_to_excel (c : sink_call) : bool :=
  match c with
  | ToExcel _ _ => true
  | _ => false
  end.

(** [os.path.join] on a system that joins with a slash, for a second
    part that does not start with one. *)
Definition slash_join (a b : pystr) : pystr := a ++ [47%N] ++ b.

(** A [to_excel] call with a sheet name. *)
Definition is_named (c : sink_call) : bool :=
  match c with
  | ToExcel _ (Some _) => true
  | _ => false
  end.

(** The call [c] was made in [calls] and did not raise. *)
Definition accepted_call (sink_raises : list sink_call -> sink_call -> bool)
    (calls : list sink_call) (c : sink_call) : Prop :=
  exists before after, calls = before ++ c :: after /\ sink_raises before c = false.

(** ** [main] *)

(** Line 19. *)
Definition input_folder : pystr := cps "input_files".

(** [s.endswith(suffix)] *)
Definition endswith (suffix s : pystr) : bool :=
  startswith (rev suffix) (rev s).

Section Main.

Variable lower : pystr -> pystr.
Variable path_join : pystr -> pystr -> pystr.
Variable sink_raises : list sink_call -> sink_call -> bool.

(** [os.path.splitext], a library function. *)
Variable splitext : pystr -> pystr * pystr.

(** What pdfplumber reads at a path. *)
Variable read_pdf : pystr -> pdf_source.

(** Lines 193-200: the files one after the other; every file adds what
    [process_pdf_with_pdfplumber] returned for it. *)
Fixpoint process_files (files : list pystr) (processed_files : list pystr)
    (w : world) (calls : list sink_call) (notes : list note)
  : list pystr * world * list sink_call * list note :=
  match files with
  | [] => (processed_files, w, calls, notes)
  | fname :: files' =>
      let fpath := path_join input_folder fname in
      let basename := fst (splitext fname) in
      let '(result, w', calls', notes') :=
        process_pdf_with_pdfplumber lower path_join sink_raises
          (read_pdf fpath) basename w calls in
      let processed_files' :=
        match result with
        | [] => processed_files
        | _ :: _ => processed_files ++ result
        end in
      process_files files' processed_files' w' calls' (notes ++ notes')
  end.

(** [main()], with the input folder given by its listing, or [None] if
    it does not exist.  The first component of the result is
    [processed_files] when [main] ends. *)
Definition main (listing : option (list pystr)) (w : world) (calls : list sink_call)
  : list pystr * world * list sink_call * list note :=
  match listing with
  | None => ([], w, calls, [FolderMissing])
  | Some names =>
      let files := List.filter (fun f => endswith (cps ".pdf") (lower f)) names in
      match files with
      | [] => ([], w, calls, [NoPdfFiles])
      | _ :: _ => process_files files [] w calls []
      end
  end.

(** The path of the workbook for the file [fname]. *)
Definition workbook_path (fname : pystr) : pystr :=
  path_join output_excel_folder (fst (splitext fname) ++ cps "_extracted.xlsx").

End Main.

(** ** Sample tables *)

(** Date, Amount, Note over two rows. *)
Definition statement_frame : DataFrame :=
  mkDataFrame
    [Some (cps "Date"); Some (cps "Amount"); Some (cps "Note")] 2
    [[Some (cps " 01/02 "); Some (cps "03/02")];
     [Some (cps "HKD 1,234.50"); None];
     [Some (cps " rent "); None]].

(** A header with the label Date twice, over one row. *)
Definition two_dates_header : list label := [Some (cps "Date"); Some (cps "Date")].
Definition two_dates_rows : list (list cell) := [[Some (cps "01/02"); Some (cps "03/02")]].
Definition two_dates_frame : DataFrame :=
  mkDataFrame two_dates_header 1 [[Some (cps "01/02")]; [Some (cps "03/02")]].

(** A table with a header and nothing below it. *)
Definition header_only_grid : grid := [[Some (cps "Date"); Some (cps "Amount")]].

(** Two labels over a row of three cells. *)
Definition wide_row_grid : grid :=
  [[Some (cps "Date"); Some (cps "Amount")];
   [Some (cps "01/02"); Some (cps "12.50"); Some (cps "x")]].

(** The table of [statement_frame] as pdfplumber gives it. *)
Definition statement_grid : grid :=
  [[Some (cps "Date"); Some (cps "Amount"); Some (cps "Note")];
   [Some (cps " 01/02 "); Some (cps "HKD 1,234.50"); Some (cps " rent ")];
   [Some (cps "03/02"); None]].

(* ================================================================== *)
(** * Properties *)

(** ** Strings *)

Example clean_amount_ex1 :
  clean_amount (Some (cps "1.234.56")) = Some (cps "1234.56").
Proof. reflexivity. Qed.

Example clean_amount_ex2 :
  clean_amount (Some (cps "$1,234.56")) = Some (cps "1,234.56").
Proof. reflexivity. Qed.

Example clean_amount_ex3 :
  clean_amount (Some (cps "  12.50  ")) = Some (cps "12.50").
Proof. reflexivity. Qed.

Example clean_amount_ex4 :
  clean_amount (Some (cps "HKD 1.2.3.")) = Some (cps "123.").
Proof. reflexivity. Qed.

Lemma amount_char_not_space c : amount_char c = true -> is_space c = false.
Proof.
  unfold amount_char, is_digit, is_space, dot, comma, minus.
  intros H.
  repeat match goal with
         | H : (_ || _)%bool = true |- _ => apply orb_prop in H; destruct H as [H|H]
         | H : (_ && _)%bool = true |- _ => apply andb_prop in H; destruct H as [? ?]
         | H : (_ <=? _) = true |- _ => apply N.leb_le in H
         | H : (_ =? _) = true |- _ => apply N.eqb_eq in H
         end;
  repeat match goal with
         | |- (_ || _)%bool = false => apply orb_false_intro
         | |- (_ && _)%bool = false => apply andb_false_iff
         end;
  try (apply N.eqb_neq; lia);
  try (left; apply N.leb_gt; lia);
  try (right; apply N.leb_gt; lia).
Qed.

Lemma amount_char_not_fullwidth c :
  amount_char c = true -> (c =? fullwidth_comma) = false.
Proof.
  unfold amount_char, is_digit, fullwidth_comma, dot, comma, minus.
  intros H. apply N.eqb_neq. intros ->. vm_compute in H. discriminate.
Qed.

Lemma re_sub_amount_chars s : Forall (fun c => amount_char c = true) (re_sub_non_amount s).
Proof.
  unfold re_sub_non_amount. apply List.Forall_forall. intros c Hc.
  apply filter_In in Hc. tauto.
Qed.

Lemma filter_all_true {A} (f : A -> bool) l :
  Forall (fun x => f x = true) l -> List.filter f l = l.
Proof.
  induction 1 as [|x l Hx _ IH]; simpl; [reflexivity|].
  rewrite Hx, IH. reflexivity.
Qed.

Lemma re_sub_fixed s :
  Forall (fun c => amount_char c = true) s -> re_sub_non_amount s = s.
Proof. apply filter_all_true. Qed.

Lemma replace_fixed s :
  Forall (fun c => amount_char c = true) s -> replace fullwidth_comma comma s = s.
Proof.
  induction 1 as [|c s Hc _ IH]; simpl; [reflexivity|].
  rewrite (amount_char_not_fullwidth c Hc), IH. reflexivity.
Qed.

Lemma lstrip_fixed s :
  Forall (fun c => amount_char c = true) s -> lstrip s = s.
Proof.
  destruct 1 as [|c s Hc _]; simpl; [reflexivity|].
  rewrite (amount_char_not_space c Hc). reflexivity.
Qed.

Lemma strip_fixed s :
  Forall (fun c => amount_char c = true) s -> strip s = s.
Proof.
  intros H. unfold strip, rstrip. rewrite (lstrip_fixed s H).
  rewrite lstrip_fixed; [apply rev_involutive|].
  apply List.Forall_forall. intros c Hc. apply in_rev in Hc.
  revert c Hc. apply List.Forall_forall. exact H.
Qed.

(** *** [split], [join] and the last period *)

Lemma split_nonempty sep s : split sep s <> [].
Proof.
  destruct s as [|c s]; simpl; [discriminate|].
  destruct (c =? sep); [discriminate|].
  destruct (split sep s); discriminate.
Qed.

Lemma split_app sep a b :
  split sep (a ++ sep :: b) = split sep a ++ split sep b.
Proof.
  induction a as [|c a IH]; simpl.
  - rewrite N.eqb_refl. reflexivity.
  - destruct (c =? sep); [rewrite IH; reflexivity|].
    rewrite IH. destruct (split sep a) as [|p ps] eqn:E.
    + exfalso. exact (split_nonempty sep a E).
    + reflexivity.
Qed.

Lemma split_without_sep sep s : count sep s = 0%nat -> split sep s = [s].
Proof.
  unfold count. induction s as [|c s IH]; simpl; [reflexivity|].
  rewrite (N.eqb_sym c sep).
  destruct (sep =? c); simpl; [discriminate|].
  intros H. rewrite (IH H). reflexivity.
Qed.

Lemma join_split sep s : join (split sep s) = remove_char sep s.
Proof.
  unfold join, remove_char. induction s as [|c s IH]; simpl; [reflexivity|].
  destruct (c =? sep); simpl; [exact IH|].
  destruct (split sep s) as [|p ps] eqn:E.
  - exfalso. exact (split_nonempty sep s E).
  - simpl in *. rewrite IH. reflexivity.
Qed.

Lemma count_app c a b : count c (a ++ b) = (count c a + count c b)%nat.
Proof. unfold count. rewrite List.filter_app, List.length_app. reflexivity. Qed.

Lemma count_cons_same c s : count c (c :: s) = S (count c s).
Proof. unfold count. simpl. rewrite N.eqb_refl. reflexivity. Qed.

Lemma count_remove_char c s : count c (remove_char c s) = 0%nat.
Proof.
  unfold count, remove_char. induction s as [|x s IH]; simpl; [reflexivity|].
  destruct (x =? c) eqn:E; simpl; [exact IH|].
  rewrite (N.eqb_sym c x), E. exact IH.
Qed.

Lemma remove_char_without c s : count c s = 0%nat -> remove_char c s = s.
Proof.
  unfold count, remove_char. induction s as [|x s IH]; simpl; [reflexivity|].
  rewrite (N.eqb_sym x c).
  destruct (c =? x); simpl; [discriminate|].
  intros H. rewrite (IH H). reflexivity.
Qed.

(** Every string with a [sep] splits at its last [sep]. *)
Lemma last_sep_exists sep s :
  (0 < count sep s)%nat ->
  exists a b, s = a ++ sep :: b /\ count sep b = 0%nat.
Proof.
  induction s as [|c s IH]; [unfold count; simpl; lia|].
  intros H. destruct (Nat.eq_dec (count sep s) 0%nat) as [Hz|Hnz].
  - unfold count in H, Hz. simpl in H.
    destruct (sep =? c) eqn:E.
    + apply N.eqb_eq in E. subst c. exists [], s. split; [reflexivity|exact Hz].
    + lia.
  - destruct IH as (a & b & -> & Hb); [lia|].
    exists (c :: a), b. split; [reflexivity|exact Hb].
Qed.

(** What lines 36-38 compute, read off the string itself: with [a] the
    text before the last period and [b] the text after it. *)
Lemma keep_last_period_at a b :
  count dot b = 0%nat ->
  keep_last_period (a ++ dot :: b) = remove_char dot a ++ dot :: b.
Proof.
  intros Hb. unfold keep_last_period.
  destruct (1 <? count dot (a ++ dot :: b))%nat eqn:E.
  - rewrite split_app, (split_without_sep dot b Hb).
    rewrite removelast_last, last_last, join_split. reflexivity.
  - apply Nat.ltb_ge in E. rewrite count_app, count_cons_same, Hb in E.
    rewrite remove_char_without; [reflexivity|lia].
Qed.

Lemma keep_last_period_count s : (count dot (keep_last_period s) <= 1)%nat.
Proof.
  destruct (Nat.eq_dec (count dot s) 0%nat) as [Hz|Hnz].
  - unfold keep_last_period. rewrite Hz. simpl. lia.
  - destruct (last_sep_exists dot s) as (a & b & -> & Hb); [lia|].
    rewrite (keep_last_period_at a b Hb).
    rewrite count_app, count_cons_same, Hb, count_remove_char. lia.
Qed.

Lemma keep_last_period_fixed s :
  (count dot s <= 1)%nat -> keep_last_period s = s.
Proof.
  intros H. unfold keep_last_period.
  destruct (1 <? count dot s)%nat eqn:E; [|reflexivity].
  apply Nat.ltb_lt in E. lia.
Qed.

Lemma keep_last_period_amount_chars s :
  Forall (fun c => amount_char c = true) s ->
  Forall (fun c => amount_char c = true) (keep_last_period s).
Proof.
  intros H. destruct (Nat.eq_dec (count dot s) 0%nat) as [Hz|Hnz].
  - rewrite keep_last_period_fixed; [exact H|lia].
  - destruct (last_sep_exists dot s) as (a & b & -> & Hb); [lia|].
    rewrite (keep_last_period_at a b Hb).
    apply Forall_app in H. destruct H as [Ha Hdb].
    apply Forall_app. split; [|exact Hdb].
    unfold remove_char. apply List.Forall_forall. intros c Hc.
    apply filter_In in Hc. destruct Hc as [Hc _].
    revert c Hc. apply List.Forall_forall. exact Ha.
Qed.

(** [keep_last_period] keeps the characters in their order. *)
Lemma keep_last_period_sublist s : sublist (keep_last_period s) s.
Proof.
  destruct (Nat.eq_dec (count dot s) 0%nat) as [Hz|Hnz].
  - rewrite keep_last_period_fixed; [reflexivity|lia].
  - destruct (last_sep_exists dot s) as (a & b & -> & Hb); [lia|].
    rewrite (keep_last_period_at a b Hb).
    apply sublist_app; [|reflexivity].
    clear Hnz. unfold remove_char. induction a as [|x a IH]; simpl; [constructor|].
    destruct (x =? dot); simpl; [apply sublist_cons|apply sublist_skip]; exact IH.
Qed.

(** *** [clean_amount] *)

Lemma amount_char_spec c :
  amount_char c = true <-> (48 <= c <= 57) \/ c = dot \/ c = comma \/ c = minus.
Proof.
  unfold amount_char, is_digit.
  rewrite !orb_true_iff, andb_true_iff, !N.leb_le, !N.eqb_eq. tauto.
Qed.

(** On a string, [clean_amount] is the character filter followed by
    lines 36-38: the substitution and the final [strip] change nothing. *)
Lemma clean_amount_str x :
  clean_amount (Some x) = Some (keep_last_period (re_sub_non_amount x)).
Proof.
  unfold clean_amount. simpl.
  rewrite (replace_fixed _ (re_sub_amount_chars x)).
  rewrite strip_fixed; [reflexivity|].
  apply keep_last_period_amount_chars, re_sub_amount_chars.
Qed.

Lemma clean_amount_result_fixed r :
  Forall (fun c => amount_char c = true) r -> (count dot r <= 1)%nat ->
  clean_amount (Some r) = Some r.
Proof.
  intros Hr Hc. rewrite clean_amount_str, (re_sub_fixed r Hr).
  rewrite (keep_last_period_fixed r Hc). reflexivity.
Qed.

(** C1. [clean_amount] is idempotent on strings: cleaning an already
    cleaned amount returns it as it is. *)
Theorem clean_amount_idempotent (x : pystr) :
  clean_amount (clean_amount (Some x)) = clean_amount (Some x).
Proof.
  rewrite clean_amount_str. apply clean_amount_result_fixed.
  - apply keep_last_period_amount_chars, re_sub_amount_chars.
  - apply keep_last_period_count.
Qed.

(** C2. When the filtered text has more than one period, only the last
    one is kept: with [a] the text before the last period and [b] the
    text after it, the result is [a] without its periods, then the
    period, then [b].  In particular 1.234.56 becomes 1234.56. *)
Theorem clean_amount_keeps_last_period :
  (forall x a b : pystr,
      (1 < count dot (re_sub_non_amount x))%nat ->
      re_sub_non_amount x = a ++ dot :: b -> count dot b = 0%nat ->
      clean_amount (Some x) = Some (remove_char dot a ++ dot :: b))
  /\ (forall x : pystr,
      (1 < count dot (re_sub_non_amount x))%nat ->
      exists a b,
        re_sub_non_amount x = a ++ dot :: b /\ count dot b = 0%nat
        /\ clean_amount (Some x) = Some (remove_char dot a ++ dot :: b)
        /\ count dot (remove_char dot a ++ dot :: b) = 1%nat)
  /\ clean_amount (Some (cps "1.234.56")) = Some (cps "1234.56").
Proof.
  split; [|split].
  - intros x a b _ Hx Hb.
    rewrite clean_amount_str, Hx. f_equal. apply keep_last_period_at, Hb.
  - intros x Hx.
    destruct (last_sep_exists dot (re_sub_non_amount x)) as (a & b & E & Hb); [lia|].
    exists a, b. repeat split; try assumption.
    + rewrite clean_amount_str, E. f_equal. apply keep_last_period_at, Hb.
    + rewrite count_app, count_cons_same, Hb, count_remove_char. reflexivity.
  - reflexivity.
Qed.

Lemma clean_amount_keeps_last_period_witness :
  clean_amount (Some (cps "1.234.56"))
  = Some (remove_char dot (cps "1.234") ++ dot :: cps "56").
Proof.
  apply (proj1 clean_amount_keeps_last_period
           (cps "1.234.56") (cps "1.234") (cps "56")).
  - vm_compute. lia.
  - reflexivity.
  - reflexivity.
Defined.

(** C3. The full-width comma substitution of line 34 never finds a
    full-width comma: the filter of line 32 has removed them all, so
    [clean_amount] computes what the pipeline without line 34 computes. *)
Theorem fullwidth_substitution_is_dead :
  (forall x : pystr,
      ~ In fullwidth_comma (re_sub_non_amount x)
      /\ replace fullwidth_comma comma (re_sub_non_amount x) = re_sub_non_amount x)
  /\ (forall v : cell, clean_amount v = clean_amount_without_substitution v).
Proof.
  split.
  - intros x. split.
    + intros Hin. unfold re_sub_non_amount in Hin.
      apply filter_In in Hin. destruct Hin as [_ Hin].
      vm_compute in Hin. discriminate.
    + apply replace_fixed, re_sub_amount_chars.
  - intros [x|]; [|reflexivity].
    unfold clean_amount, clean_amount_without_substitution. simpl.
    rewrite (replace_fixed _ (re_sub_amount_chars x)). reflexivity.
Qed.

(** C4. On a string, [clean_amount] returns a string made only of ASCII
    digits, periods, commas and minus signs, taken in order from the
    input; it has no whitespace left to trim. *)
Theorem clean_amount_only_amount_chars :
  (forall s : pystr,
      exists r,
        clean_amount (Some s) = Some r
        /\ Forall (fun c => (48 <= c <= 57) \/ c = dot \/ c = comma \/ c = minus) r
        /\ Forall (fun c => is_space c = false) r
        /\ strip r = r
        /\ sublist r s)
  /\ clean_amount (Some (cps "  12.50  ")) = Some (cps "12.50")
  /\ clean_amount (Some (cps "$1,234.56")) = Some (cps "1,234.56").
Proof.
  split; [|split; reflexivity].
  intros s. exists (keep_last_period (re_sub_non_amount s)).
  pose proof (keep_last_period_amount_chars _ (re_sub_amount_chars s)) as Hr.
  split; [apply clean_amount_str|].
  split; [|split; [|split]].
  - eapply Forall_impl; [exact Hr|]. intros c Hc. apply amount_char_spec, Hc.
  - eapply Forall_impl; [exact Hr|]. intros c Hc. apply amount_char_not_space, Hc.
  - apply strip_fixed, Hr.
  - etransitivity; [apply keep_last_period_sublist|].
    clear Hr. unfold re_sub_non_amount.
    induction s as [|c s IH]; simpl; [constructor|].
    destruct (amount_char c); [apply sublist_skip|apply sublist_cons]; exact IH.
Qed.

(** C5. A missing amount stays missing: [clean_amount] returns it as it
    is, and not the empty string. *)
Theorem clean_amount_propagates_absence (v : cell) :
  isna v = true -> clean_amount v = v /\ clean_amount v <> Some [].
Proof.
  intros H. unfold clean_amount. rewrite H.
  split; [reflexivity|]. destruct v; discriminate.
Qed.

Lemma clean_amount_propagates_absence_witness :
  clean_amount None = None /\ clean_amount None <> Some [].
Proof. apply (clean_amount_propagates_absence None). reflexivity. Defined.

(** ** Keyword matching *)

Lemma startswith_spec p s : startswith p s = true <-> exists b, s = p ++ b.
Proof.
  revert s. induction p as [|x p IH]; intros s; simpl.
  - split; [intros _; exists s; reflexivity|reflexivity].
  - destruct s as [|y s].
    + split; [discriminate|]. intros [b Hb]. discriminate.
    + rewrite andb_true_iff, N.eqb_eq, IH. split.
      * intros [-> [b ->]]. exists b. reflexivity.
      * intros [b Hb]. injection Hb as -> ->. split; [reflexivity|]. exists b. reflexivity.
Qed.

(** [contains needle hay] says that [needle] is a substring of [hay]. *)
Lemma contains_spec needle hay :
  contains needle hay = true <-> exists a b, hay = a ++ needle ++ b.
Proof.
  induction hay as [|y hay IH].
  - cbn [contains]. rewrite orb_false_r, startswith_spec. split.
    + intros [b Hb]. exists [], b. exact Hb.
    + intros (a & b & H). destruct a as [|x a]; [|discriminate].
      exists b. exact H.
  - cbn [contains]. rewrite orb_true_iff, startswith_spec, IH. split.
    + intros [[b Hb]|(a & b & Hab)].
      * exists [], b. exact Hb.
      * exists (y :: a), b. rewrite Hab. reflexivity.
    + intros (a & b & H). destruct a as [|x a].
      * left. exists b. exact H.
      * right. injection H as -> ->. exists a, b. reflexivity.
Qed.

Lemma label_eqb_eq a b : label_eqb a b = true <-> a = b.
Proof.
  assert (Hs : forall x y : pystr, pystr_eqb x y = true <-> x = y).
  { induction x as [|c x IH]; destruct y as [|c' y]; simpl;
      try (split; [reflexivity|reflexivity]); try (split; discriminate).
    rewrite andb_true_iff, N.eqb_eq, IH. split.
    - intros [-> ->]. reflexivity.
    - intros H. injection H as -> ->. split; reflexivity. }
  destruct a as [x|], b as [y|]; simpl;
    try (split; [reflexivity|reflexivity]); try (split; discriminate).
  rewrite Hs. split; [intros ->; reflexivity|intros H; injection H as ->; reflexivity].
Qed.

Section KeywordProperties.

Variable lower : pystr -> pystr.

(** C6. A label is a Date column exactly when its lower-cased text
    contains one of the two date keywords, and an Amount column exactly
    when it contains one of the eight amount keywords; the two tests are
    independent, and one label can pass both.  The header Date,
    Withdrawals, Balance gives Date for the first label and Amount for
    the other two. *)
Theorem classify_columns_by_keyword :
  (forall s, forallb plain_char s = true -> lower s = ascii_lower s) ->
  (forall col : label,
      let text := lower (str col) in
      (is_date_col lower col = true <->
         contains (cps "date") text = true
         \/ contains [26085; 26399] text = true)
      /\ (is_amount_col lower col = true <->
         contains (cps "withdrawals") text = true
         \/ contains (cps "deposits") text = true
         \/ contains (cps "balance") text = true
         \/ contains (cps "amount") text = true
         \/ contains [25903; 20986] text = true
         \/ contains [23384; 20837] text = true
         \/ contains [32080; 39192] text = true
         \/ contains [37329; 38989] text = true))
  /\ (let header := [Some (cps "Date"); Some (cps "Withdrawals"); Some (cps "Balance")] in
      List.filter (is_date_col lower) header = [Some (cps "Date")]
      /\ List.filter (is_amount_col lower) header
         = [Some (cps "Withdrawals"); Some (cps "Balance")])
  /\ (exists col, is_date_col lower col = true /\ is_amount_col lower col = true).
Proof.
  intros Hl.
  split; [|split].
  - intros col text.
    unfold is_date_col, is_amount_col, matches_keyword,
      date_col_keywords, amount_col_keywords.
    cbn [existsb].
    repeat match goal with
           | |- context [lower ?s] => rewrite (Hl s) by reflexivity
           end.
    change (ascii_lower (cps "date")) with (cps "date").
    change (ascii_lower (cps "withdrawals")) with (cps "withdrawals").
    change (ascii_lower (cps "deposits")) with (cps "deposits").
    change (ascii_lower (cps "balance")) with (cps "balance").
    change (ascii_lower (cps "amount")) with (cps "amount").
    change (ascii_lower [26085; 26399]) with [26085; 26399].
    change (ascii_lower [25903; 20986]) with [25903; 20986].
    change (ascii_lower [23384; 20837]) with [23384; 20837].
    change (ascii_lower [32080; 39192]) with [32080; 39192].
    change (ascii_lower [37329; 38989]) with [37329; 38989].
    fold text. rewrite !orb_false_r, !orb_true_iff. tauto.
  - unfold is_date_col, is_amount_col, matches_keyword,
      date_col_keywords, amount_col_keywords.
    cbn [List.filter existsb str].
    repeat match goal with
           | |- context [lower ?s] => rewrite (Hl s) by reflexivity
           end.
    split; reflexivity.
  - exists (Some (cps "Date Amount")).
    unfold is_date_col, is_amount_col, matches_keyword,
      date_col_keywords, amount_col_keywords.
    cbn [existsb str].
    repeat match goal with
           | |- context [lower ?s] => rewrite (Hl s) by reflexivity
           end.
    split; reflexivity.
Qed.

End KeywordProperties.

Lemma classify_columns_by_keyword_witness :
  (forall col : label,
      let text := ascii_lower (str col) in
      (is_date_col ascii_lower col = true <->
         contains (cps "date") text = true
         \/ contains [26085; 26399] text = true)
      /\ (is_amount_col ascii_lower col = true <->
         contains (cps "withdrawals") text = true
         \/ contains (cps "deposits") text = true
         \/ contains (cps "balance") text = true
         \/ contains (cps "amount") text = true
         \/ contains [25903; 20986] text = true
         \/ contains [23384; 20837] text = true
         \/ contains [32080; 39192] text = true
         \/ contains [37329; 38989] text = true))
  /\ (let header := [Some (cps "Date"); Some (cps "Withdrawals"); Some (cps "Balance")] in
      List.filter (is_date_col ascii_lower) header = [Some (cps "Date")]
      /\ List.filter (is_amount_col ascii_lower) header
         = [Some (cps "Withdrawals"); Some (cps "Balance")])
  /\ (exists col, is_date_col ascii_lower col = true /\ is_amount_col ascii_lower col = true).
Proof.
  apply (classify_columns_by_keyword ascii_lower). intros s _. reflexivity.
Defined.

(** ** The store *)

Local Open Scope nat_scope.

Lemma world_eta w : mkWorld (store w) (log w) = w.
Proof. destruct w; reflexivity. Qed.

Lemma deref_lookup w r d : store w !! r = Some d -> deref w r = d.
Proof. unfold deref. intros ->. reflexivity. Qed.

Lemma lookup_deref w r : r < length (store w) -> store w !! r = Some (deref w r).
Proof.
  intros Hr. unfold deref.
  destruct (lookup_lt_is_Some_2 (store w) r Hr) as [d ->]. reflexivity.
Qed.

Lemma deref_alloc w d :
  deref (mkWorld (store w ++ [d]) (log w)) (length (store w)) = d.
Proof. apply deref_lookup. simpl. apply list_lookup_middle. reflexivity. Qed.

Lemma insert_last {A} (l : list A) (x y : A) : <[length l := y]> (l ++ [x]) = l ++ [y].
Proof.
  rewrite insert_app_r_alt by lia. rewrite Nat.sub_diag. reflexivity.
Qed.

Lemma bind_run {A B} (m : M A) (k : A -> M B) w :
  (m ≫= k) w
  = match m w with
    | (Ok a, w') => k a w'
    | (Raise e, w') => (Raise e, w')
    end.
Proof. reflexivity. Qed.

Lemma read_run r w : read r w = (Ok (deref w r), w).
Proof. reflexivity. Qed.

Lemma copy_run df w :
  copy df w = (Ok (length (store w)), mkWorld (store w ++ [deref w df]) (log w)).
Proof. reflexivity. Qed.

(** A loop of in-place updates on [r] computes [run_columns] on the
    frame behind [r] and touches nothing else. *)
Lemma for_each_update_run step cols r w :
  r < length (store w) ->
  for_each cols (fun col => update r (step col)) w
  = (match snd (run_columns step cols (deref w r)) with
     | None => Ok tt
     | Some e => Raise e
     end,
     mkWorld (<[r := fst (run_columns step cols (deref w r))]> (store w)) (log w)).
Proof.
  revert w. induction cols as [|col cols IH]; intros w Hr.
  - simpl. unfold mret, M_ret.
    rewrite list_insert_id by (apply lookup_deref, Hr).
    rewrite world_eta. reflexivity.
  - cbn [for_each run_columns]. unfold mbind, M_bind, update.
    destruct (step col (deref w r)) as [d'|e] eqn:E.
    + rewrite IH by (simpl; rewrite length_insert; exact Hr).
      assert (Hd : deref (mkWorld (<[r:=d']> (store w)) (log w)) r = d').
      { apply deref_lookup. simpl. apply list_lookup_insert_eq, Hr. }
      rewrite Hd. simpl. rewrite list_insert_insert_eq. reflexivity.
    + simpl. rewrite list_insert_id by (apply lookup_deref, Hr).
      rewrite world_eta. reflexivity.
Qed.

(** ** Cleaning one column *)

Lemma positions_from_lookup i col cols p :
  In p (positions_from i col cols) ->
  exists q, p = i + q /\ cols !! q = Some col.
Proof.
  revert i. induction cols as [|c cols IH]; intros i; simpl; [tauto|].
  destruct (label_eqb c col) eqn:E.
  - intros [<-|Hin].
    + exists 0. apply label_eqb_eq in E. subst c. split; [lia|reflexivity].
    + destruct (IH _ Hin) as (q & -> & Hq). exists (S q). split; [lia|exact Hq].
  - intros Hin. destruct (IH _ Hin) as (q & -> & Hq).
    exists (S q). split; [lia|exact Hq].
Qed.

Lemma positions_lookup col cols p :
  In p (positions col cols) -> cols !! p = Some col.
Proof.
  intros Hin. destruct (positions_from_lookup 0 col cols p Hin) as (q & -> & Hq).
  exact Hq.
Qed.

Lemma cleaned_from_refl touched d : cleaned_from touched d d.
Proof. repeat split; reflexivity. Qed.

Lemma cleaned_from_trans touched d1 d2 d3 :
  cleaned_from touched d1 d2 -> cleaned_from touched d2 d3 ->
  cleaned_from touched d1 d3.
Proof.
  intros (Hc & Hi & Hl & Hw & Hf) (Hc' & Hi' & Hl' & Hw' & Hf').
  repeat split.
  - congruence.
  - congruence.
  - congruence.
  - intros j. rewrite Hw'. apply Hw.
  - intros j col Hj Ht. rewrite (Hf' j col); [apply (Hf j col); assumption| |exact Ht].
    rewrite Hc. exact Hj.
Qed.

Lemma set_column_at_cleaned_from touched p col values d :
  columns d !! p = Some col -> touched col = true ->
  length values = length (column_at p d) ->
  cleaned_from touched d (set_column_at p values d).
Proof.
  intros Hp Ht Hlen. unfold set_column_at, cleaned_from. simpl.
  split; [reflexivity|]. split; [reflexivity|].
  split; [apply length_insert|]. split.
  - intros j. destruct (decide (p = j)) as [<-|Hne].
    + unfold column_at in Hlen.
      destruct (data d !! p) as [c|] eqn:E.
      * rewrite list_lookup_insert_eq by (eapply lookup_lt_Some; exact E).
        simpl in *. congruence.
      * rewrite list_insert_ge by (apply lookup_ge_None; exact E).
        rewrite E. reflexivity.
    + rewrite list_lookup_insert_ne by exact Hne. reflexivity.
  - intros j col' Hj Hf. apply list_lookup_insert_ne.
    intros <-. congruence.
Qed.

Lemma clean_date_column_cleaned_from touched col d d' :
  touched col = true -> clean_date_column col d = Ok d' ->
  cleaned_from touched d d'.
Proof.
  intros Ht. unfold clean_date_column.
  destruct (positions col (columns d)) as [|p [|q ps]] eqn:E.
  - intros [= <-]. apply cleaned_from_refl.
  - intros [= <-]. apply (set_column_at_cleaned_from touched p col).
    + apply positions_lookup. rewrite E. left. reflexivity.
    + exact Ht.
    + apply length_map.
  - discriminate.
Qed.

Lemma clean_amount_column_cleaned_from touched col d d' :
  touched col = true -> clean_amount_column col d = Ok d' ->
  cleaned_from touched d d'.
Proof.
  intros Ht. unfold clean_amount_column.
  destruct (positions col (columns d)) as [|p [|q ps]] eqn:E.
  - intros [= <-]. apply cleaned_from_refl.
  - intros [= <-]. apply (set_column_at_cleaned_from touched p col).
    + apply positions_lookup. rewrite E. left. reflexivity.
    + exact Ht.
    + apply length_map.
  - destruct (index d =? 0); [|discriminate].
    intros [= <-]. apply cleaned_from_refl.
Qed.

Lemma run_columns_cleaned_from touched step cols d :
  (forall col, In col cols -> touched col = true) ->
  (forall col d d', touched col = true -> step col d = Ok d' ->
                    cleaned_from touched d d') ->
  cleaned_from touched d (fst (run_columns step cols d)).
Proof.
  intros Hcols Hstep. revert d.
  induction cols as [|col cols IH]; intros d; simpl.
  - apply cleaned_from_refl.
  - destruct (step col d) as [d'|e] eqn:E.
    + apply (cleaned_from_trans touched d d').
      * apply (Hstep col); [apply Hcols; left; reflexivity|exact E].
      * apply IH. intros c Hc. apply Hcols. right. exact Hc.
    + apply cleaned_from_refl.
Qed.

(** A loop over labels that stand once in the header does not raise. *)
Lemma run_columns_returns step cols d :
  (forall col d, length (positions col (columns d)) <= 1 ->
                 exists d', step col d = Ok d' /\ columns d' = columns d) ->
  (forall col, In col cols -> length (positions col (columns d)) <= 1) ->
  snd (run_columns step cols d) = None.
Proof.
  intros Hstep. revert d.
  induction cols as [|col cols IH]; intros d Hcols; simpl; [reflexivity|].
  destruct (Hstep col d) as (d' & -> & Hc); [apply Hcols; left; reflexivity|].
  apply IH. intros c Hin. rewrite Hc. apply Hcols. right. exact Hin.
Qed.

Lemma clean_date_column_returns col d :
  length (positions col (columns d)) <= 1 ->
  exists d', clean_date_column col d = Ok d' /\ columns d' = columns d.
Proof.
  unfold clean_date_column.
  destruct (positions col (columns d)) as [|p [|q ps]]; simpl; intros H.
  - eexists. split; reflexivity.
  - eexists. split; reflexivity.
  - lia.
Qed.

Lemma clean_amount_column_returns col d :
  length (positions col (columns d)) <= 1 ->
  exists d', clean_amount_column col d = Ok d' /\ columns d' = columns d.
Proof.
  unfold clean_amount_column.
  destruct (positions col (columns d)) as [|p [|q ps]]; simpl; intros H.
  - eexists. split; reflexivity.
  - eexists. split; reflexivity.
  - lia.
Qed.

Section TableProperties.

Variable lower : pystr -> pystr.

Lemma date_cols_classified d col :
  In col (List.filter (is_date_col lower) (columns d)) ->
  In col (columns d) /\ classified lower col = true.
Proof.
  intros H. apply filter_In in H. destruct H as [Hin Hd].
  split; [exact Hin|]. unfold classified. rewrite Hd. reflexivity.
Qed.

Lemma amount_cols_classified d col :
  In col (List.filter (is_amount_col lower) (columns d)) ->
  In col (columns d) /\ classified lower col = true.
Proof.
  intros H. apply filter_In in H. destruct H as [Hin Hd].
  split; [exact Hin|]. unfold classified. rewrite Hd. apply orb_true_r.
Qed.

(** The copy keeps the header, the shape, and every unclassified column. *)
Lemma cleaned_frame_cleaned_from d :
  cleaned_from (classified lower) d (fst (cleaned_frame lower d)).
Proof.
  unfold cleaned_frame.
  pose proof (run_columns_cleaned_from (classified lower) clean_date_column
                (List.filter (is_date_col lower) (columns d)) d) as H1.
  destruct (run_columns clean_date_column _ d) as [d1 [e|]]; simpl in *.
  - apply H1.
    + intros col Hc. apply (date_cols_classified d col Hc).
    + intros col d0 d'. apply clean_date_column_cleaned_from.
  - apply (cleaned_from_trans _ d d1).
    + apply H1.
      * intros col Hc. apply (date_cols_classified d col Hc).
      * intros col d0 d'. apply clean_date_column_cleaned_from.
    + apply run_columns_cleaned_from.
      * intros col Hc. apply (amount_cols_classified d col Hc).
      * intros col d0 d'. apply clean_amount_column_cleaned_from.
Qed.

Lemma no_classified_duplicate_positions d col :
  no_classified_duplicate lower d = true ->
  In col (columns d) -> classified lower col = true ->
  length (positions col (columns d)) <= 1.
Proof.
  unfold no_classified_duplicate, duplicated. intros H Hin Hc.
  rewrite forallb_forall in H. specialize (H col Hin).
  rewrite Hc in H. simpl in H. apply negb_true_iff, Nat.ltb_ge in H. exact H.
Qed.

(** Without a classified label standing twice, cleaning returns. *)
Lemma cleaned_frame_returns d :
  no_classified_duplicate lower d = true ->
  snd (cleaned_frame lower d) = None.
Proof.
  intros Hnd. unfold cleaned_frame.
  pose proof (run_columns_returns clean_date_column
                (List.filter (is_date_col lower) (columns d)) d
                clean_date_column_returns) as H1.
  pose proof (run_columns_cleaned_from (classified lower) clean_date_column
                (List.filter (is_date_col lower) (columns d)) d) as H2.
  destruct (run_columns clean_date_column _ d) as [d1 o]; simpl in *.
  rewrite H1 by (intros col Hc; destruct (date_cols_classified d col Hc);
                 apply no_classified_duplicate_positions; assumption).
  destruct H2 as (Hcols & _).
  - intros col Hc. apply (date_cols_classified d col Hc).
  - intros col d0 d'. apply clean_date_column_cleaned_from.
  - apply (run_columns_returns clean_amount_column _ d1 clean_amount_column_returns).
    intros col Hc. rewrite Hcols. destruct (amount_cols_classified d col Hc).
    apply no_classified_duplicate_positions; assumption.
Qed.

(** [clean_table_data] allocates one frame, the copy, computes
    [cleaned_frame] on it, and writes nowhere else. *)
Lemma clean_table_data_run df w :
  clean_table_data lower df w
  = (match snd (cleaned_frame lower (deref w df)) with
     | None => Ok (length (store w))
     | Some e => Raise e
     end,
     mkWorld (store w ++ [fst (cleaned_frame lower (deref w df))]) (log w)).
Proof.
  unfold clean_table_data, cleaned_frame.
  rewrite bind_run, copy_run, bind_run, read_run.
  set (d := deref w df). set (r := length (store w)).
  set (w1 := mkWorld (store w ++ [d]) (log w)).
  assert (Hd : deref w1 r = d) by apply deref_alloc.
  assert (Hr : r < length (store w1)).
  { subst w1 r. simpl. rewrite length_app. simpl. lia. }
  rewrite Hd, bind_run.
  rewrite (for_each_update_run clean_date_column _ r w1 Hr), Hd.
  destruct (run_columns clean_date_column (List.filter (is_date_col lower) (columns d)) d)
    as [d1 [e|]] eqn:E1; cbn [fst snd].
  - subst w1 r. simpl. rewrite insert_last. reflexivity.
  - set (w2 := mkWorld (<[r:=d1]> (store w1)) (log w1)).
    assert (Hr2 : r < length (store w2)).
    { subst w2. simpl. rewrite length_insert. exact Hr. }
    assert (Hd2 : deref w2 r = d1).
    { apply deref_lookup. subst w2. simpl. apply list_lookup_insert_eq, Hr. }
    rewrite bind_run.
    rewrite (for_each_update_run clean_amount_column _ r w2 Hr2), Hd2.
    subst w2 w1 r. simpl. rewrite list_insert_insert_eq, insert_last.
    destruct (run_columns clean_amount_column _ d1) as [d2 [e|]]; reflexivity.
Qed.


Lemma forallb_false_exists {A} (f : A -> bool) l :
  forallb f l = false -> exists x, In x l /\ f x = false.
Proof.
  induction l as [|x l IH]; simpl; [discriminate|].
  destruct (f x) eqn:E; simpl.
  - intros H. destruct (IH H) as (y & Hy & Hf). exists y. split; [right|]; assumption.
  - intros _. exists x. split; [left; reflexivity|exact E].
Qed.

(** A loop over labels, one of which stands twice in the header, raises
    when its step raises on such a label. *)
Lemma run_columns_raises (ok : DataFrame -> Prop) step cols d :
  (forall col d, ok d -> 1 < length (positions col (columns d)) ->
                 exists e, step col d = Raise e) ->
  (forall col d d', ok d -> step col d = Ok d' ->
                    ok d' /\ columns d' = columns d) ->
  ok d ->
  (exists col, In col cols /\ 1 < length (positions col (columns d))) ->
  snd (run_columns step cols d) <> None.
Proof.
  intros Hraise Hkeep. revert d.
  induction cols as [|c cols IH]; intros d Hok (col & Hin & Hdup); simpl.
  - destruct Hin.
  - destruct (step c d) as [d'|e] eqn:E; [|discriminate].
    destruct (Hkeep c d d' Hok E) as [Hok' Hc].
    apply IH; [exact Hok'|]. exists col. rewrite Hc. split; [|exact Hdup].
    destruct Hin as [->|Hin]; [|exact Hin].
    destruct (Hraise col d Hok Hdup) as [e He]. congruence.
Qed.

(** With rows, a classified label standing twice makes cleaning raise. *)
Lemma cleaned_frame_raises d :
  0 < index d -> no_classified_duplicate lower d = false ->
  snd (cleaned_frame lower d) <> None.
Proof.
  intros Hrows Hdup. unfold no_classified_duplicate in Hdup.
  apply forallb_false_exists in Hdup. destruct Hdup as (col & Hin & Hcol).
  apply negb_false_iff, andb_true_iff in Hcol. destruct Hcol as [Hcl Hd].
  unfold duplicated in Hd. apply Nat.ltb_lt in Hd.
  unfold cleaned_frame.
  pose proof (run_columns_cleaned_from (classified lower) clean_date_column
                (List.filter (is_date_col lower) (columns d)) d) as H2.
  pose proof (run_columns_raises (fun _ => True) clean_date_column
                (List.filter (is_date_col lower) (columns d)) d) as H1.
  destruct (run_columns clean_date_column _ d) as [d1 [e|]]; simpl in *;
    [discriminate|].
  destruct H2 as (Hcols & Hidx & _).
  { intros c Hc. apply (date_cols_classified d c Hc). }
  { intros c d0 d'. apply clean_date_column_cleaned_from. }
  destruct (is_date_col lower col) eqn:Hdate.
  - exfalso. apply H1; try exact I; try reflexivity.
    + intros c d0 _ Hc. unfold clean_date_column.
      destruct (positions c (columns d0)) as [|p [|q ps]]; simpl in Hc; try lia.
      eexists. reflexivity.
    + intros c d0 d' _ Hs. split; [exact I|].
      apply (clean_date_column_cleaned_from (fun _ => true) c d0 d' eq_refl Hs).
    + exists col. split; [|exact Hd]. apply filter_In. split; assumption.
  - unfold classified in Hcl. rewrite Hdate in Hcl. simpl in Hcl.
    apply (run_columns_raises (fun x => 0 < index x) clean_amount_column).
    + intros c d0 Hpos Hc. unfold clean_amount_column.
      destruct (positions c (columns d0)) as [|p [|q ps]]; simpl in Hc; try lia.
      destruct (index d0 =? 0) eqn:E; [apply Nat.eqb_eq in E; lia|].
      eexists. reflexivity.
    + intros c d0 d' Hpos Hs.
      destruct (clean_amount_column_cleaned_from (fun _ => true) c d0 d' eq_refl Hs)
        as (Hc' & Hi' & _).
      split; [lia|exact Hc'].
    + lia.
    + exists col. rewrite Hcols. split; [|exact Hd].
      apply filter_In. split; assumption.
Qed.

Lemma cleaned_from_cell_at touched d d' i j col :
  cleaned_from touched d d' ->
  columns d !! j = Some col -> touched col = false ->
  cell_at d' i j = cell_at d i j.
Proof.
  intros (_ & _ & _ & _ & Hf) Hj Ht. unfold cell_at.
  rewrite (Hf j col Hj Ht). reflexivity.
Qed.

(** C9. [clean_table_data] works on a copy: after the call, whether it
    returned or raised, the input frame and every other frame of the
    store are what they were; the frame it returns is a new one, and in
    it every cell of a column that is neither a Date nor an Amount
    column is the cell of the input.  It does return when no classified
    label stands twice in the header. *)
Theorem clean_table_data_leaves_input (df : ref) (d : DataFrame) (w : world) :
  store w !! df = Some d ->
  let res := fst (clean_table_data lower df w) in
  let w' := snd (clean_table_data lower df w) in
  store w' !! df = Some d
  /\ (forall r x, store w !! r = Some x -> store w' !! r = Some x)
  /\ (forall df_cleaned, res = Ok df_cleaned ->
        df_cleaned <> df
        /\ store w !! df_cleaned = None
        /\ exists d',
            store w' !! df_cleaned = Some d'
            /\ forall i j col,
                columns d !! j = Some col ->
                is_date_col lower col = false -> is_amount_col lower col = false ->
                cell_at d' i j = cell_at d i j)
  /\ (no_classified_duplicate lower d = true -> exists df_cleaned, res = Ok df_cleaned).
Proof.
  intros Hdf. rewrite clean_table_data_run, (deref_lookup w df d Hdf).
  cbn [fst snd store].
  split; [apply lookup_app_l_Some, Hdf|].
  split; [intros r x Hr; apply lookup_app_l_Some, Hr|].
  split.
  - intros df_cleaned Hres.
    destruct (snd (cleaned_frame lower d)); [discriminate|].
    injection Hres as <-.
    split; [apply lookup_lt_Some in Hdf; lia|].
    split; [apply lookup_ge_None; lia|].
    exists (fst (cleaned_frame lower d)).
    split; [apply list_lookup_middle; reflexivity|].
    intros i j col Hj Hdate Hamount.
    apply (cleaned_from_cell_at (classified lower) d _ i j col).
    + apply cleaned_frame_cleaned_from.
    + exact Hj.
    + unfold classified. rewrite Hdate, Hamount. reflexivity.
  - intros Hnd. rewrite (cleaned_frame_returns d Hnd). eexists. reflexivity.
Qed.

(** On a table with rows in which a classified label stands twice,
    [clean_table_data] raises. *)
Lemma clean_table_data_raises_on_duplicate (df : ref) (d : DataFrame) (w : world) :
  store w !! df = Some d ->
  0 < index d -> no_classified_duplicate lower d = false ->
  exists e, fst (clean_table_data lower df w) = Raise e.
Proof.
  intros Hdf Hrows Hdup.
  rewrite clean_table_data_run, (deref_lookup w df d Hdf). cbn [fst].
  pose proof (cleaned_frame_raises d Hrows Hdup) as Hr.
  destruct (snd (cleaned_frame lower d)) as [e|]; [|congruence].
  exists e. reflexivity.
Qed.

(** C10, as the code has it.  When no label classified Date or Amount
    stands twice in the header, [clean_table_data] returns a frame with
    the header of the input, label by label in the same order, the same
    number of rows and the same number of cells in every column; and
    whenever it returns a frame, the frame has that shape. *)
Theorem clean_table_data_keeps_shape (df : ref) (d : DataFrame) (w : world) :
  store w !! df = Some d ->
  let res := fst (clean_table_data lower df w) in
  let w' := snd (clean_table_data lower df w) in
  (no_classified_duplicate lower d = true ->
     exists df_cleaned d',
       res = Ok df_cleaned /\ store w' !! df_cleaned = Some d'
       /\ columns d' = columns d /\ index d' = index d
       /\ length (data d') = length (data d)
       /\ forall j, length <$> (data d' !! j) = length <$> (data d !! j))
  /\ (forall df_cleaned, res = Ok df_cleaned ->
       exists d',
         store w' !! df_cleaned = Some d'
         /\ columns d' = columns d /\ index d' = index d
         /\ length (data d') = length (data d)
         /\ forall j, length <$> (data d' !! j) = length <$> (data d !! j)).
Proof.
  intros Hdf. rewrite clean_table_data_run, (deref_lookup w df d Hdf).
  cbn [fst snd store].
  destruct (cleaned_frame_cleaned_from d) as (Hc & Hi & Hl & Hw & _).
  split.
  - intros Hnd. rewrite (cleaned_frame_returns d Hnd).
    exists (length (store w)), (fst (cleaned_frame lower d)).
    split; [reflexivity|]. split; [apply list_lookup_middle; reflexivity|].
    repeat split; assumption.
  - intros df_cleaned Hres.
    destruct (snd (cleaned_frame lower d)); [discriminate|].
    injection Hres as <-.
    exists (fst (cleaned_frame lower d)).
    split; [apply list_lookup_middle; reflexivity|].
    repeat split; assumption.
Qed.

End TableProperties.

Lemma clean_table_data_leaves_input_witness :
  let w := mkWorld [statement_frame] [] in
  store (snd (clean_table_data ascii_lower 0 w)) !! 0 = Some statement_frame
  /\ exists df_cleaned, fst (clean_table_data ascii_lower 0 w) = Ok df_cleaned.
Proof.
  pose proof (clean_table_data_leaves_input ascii_lower 0 statement_frame
                (mkWorld [statement_frame] []) eq_refl) as H.
  cbv zeta in H. destruct H as (H1 & _ & _ & H4).
  split; [exact H1|]. apply H4. reflexivity.
Defined.

Lemma clean_table_data_keeps_shape_witness :
  let w := mkWorld [statement_frame] [] in
  exists df_cleaned d',
    fst (clean_table_data ascii_lower 0 w) = Ok df_cleaned
    /\ store (snd (clean_table_data ascii_lower 0 w)) !! df_cleaned = Some d'
    /\ columns d' = columns statement_frame
    /\ index d' = index statement_frame.
Proof.
  pose proof (clean_table_data_keeps_shape ascii_lower 0 statement_frame
                (mkWorld [statement_frame] []) eq_refl) as H.
  cbv zeta in H. destruct H as (H1 & _).
  destruct (H1 eq_refl) as (df_cleaned & d' & Hres & Hd' & Hc & Hi & _).
  exists df_cleaned, d'. repeat split; assumption.
Defined.

(** The header Date, Date is one [pd.DataFrame] accepts, and on its
    frame [clean_table_data] raises at line 74: there is no cleaned
    table whose shape could be compared. *)
Lemma clean_table_data_two_dates_raises :
  DataFrame_of_rows two_dates_rows two_dates_header = Ok two_dates_frame
  /\ clean_table_data ascii_lower 0 (mkWorld [two_dates_frame] [])
     = (Raise AttributeError, mkWorld [two_dates_frame; two_dates_frame] []).
Proof. split; reflexivity. Qed.

(** ** The table loop *)

Lemma emit_run m w : emit m w = (Ok tt, mkWorld (store w) (log w ++ [m])).
Proof. reflexivity. Qed.

Lemma alloc_run d w :
  alloc d w = (Ok (length (store w)), mkWorld (store w ++ [d]) (log w)).
Proof. reflexivity. Qed.

(** Frames already in the store stay what they are when the store grows. *)
Lemma frames_prefix w w' refs :
  store w `prefix_of` store w' ->
  Forall (fun r => r < length (store w)) refs ->
  frames w' refs = frames w refs.
Proof.
  intros [k Hk] Hrefs. unfold frames.
  induction Hrefs as [|r refs Hr _ IH]; simpl; [reflexivity|].
  rewrite IH. f_equal. unfold deref. rewrite Hk, lookup_app_l by exact Hr.
  reflexivity.
Qed.

Lemma Forall_lt_mono (refs : list nat) n m :
  n <= m -> Forall (fun r => r < n) refs -> Forall (fun r => r < m) refs.
Proof. intros Hnm H. eapply Forall_impl; [exact H|]. intros r Hr. simpl in *. lia. Qed.

Lemma flat_map_filter {A B} (f : A -> list B) (g : A -> bool) l :
  (forall x, g x = false -> f x = []) ->
  flat_map f (List.filter g l) = flat_map f l.
Proof.
  intros Hg. induction l as [|x l IH]; simpl; [reflexivity|].
  destruct (g x) eqn:E; simpl; rewrite IH; [reflexivity|].
  rewrite (Hg x E). reflexivity.
Qed.

Section LoopProperties.

Variable lower : pystr -> pystr.

Lemma table_frames_short (table_data : grid) :
  length table_data < 2 -> table_frames lower table_data = [].
Proof.
  destruct table_data as [|header [|row rows]]; simpl; try reflexivity. lia.
Qed.

(** A table with fewer than two rows: one warning, nothing else. *)
Lemma process_table_short page_num idx (table_data : grid) all_tables w :
  length table_data < 2 ->
  process_table lower page_num idx table_data all_tables w
  = (Ok all_tables,
     mkWorld (store w)
       (log w ++ [match table_data with
                  | [] => TableEmpty page_num idx
                  | _ :: _ => TableNoDataRows page_num idx
                  end])).
Proof.
  destruct table_data as [|header [|row rows]]; simpl; try reflexivity. lia.
Qed.

(** What the [try] block of lines 115-130 does to a table with data rows. *)
Lemma process_table_rows page_num idx header rows all_tables w :
  rows <> [] ->
  process_table lower page_num idx (header :: rows) all_tables w
  = match DataFrame_of_rows rows header with
    | Raise e =>
        (Ok all_tables, mkWorld (store w) (log w ++ [TableError page_num idx e]))
    | Ok d =>
        match cleaned_frame lower d with
        | (d', Some e) =>
            (Ok all_tables,
             mkWorld (store w ++ [d; d']) (log w ++ [TableError page_num idx e]))
        | (d', None) =>
            (Ok (all_tables ++ [S (length (store w))]),
             mkWorld (store w ++ [d; d']) (log w))
        end
    end.
Proof.
  intros Hrows. destruct rows as [|row rows]; [congruence|].
  unfold process_table.
  change (1 <? length (header :: row :: rows)) with true. cbv iota.
  unfold try_except, new_DataFrame. rewrite bind_run.
  destruct (DataFrame_of_rows (row :: rows) header) as [d|e]; [|reflexivity].
  rewrite alloc_run, bind_run, clean_table_data_run, deref_alloc.
  cbn [store log]. rewrite <- app_assoc. cbn [app].
  destruct (cleaned_frame lower d) as [d' [e|]]; cbn [fst snd].
  - reflexivity.
  - unfold mret, M_ret. rewrite length_app. cbn [length].
    rewrite Nat.add_1_r. reflexivity.
Qed.

Lemma process_table_run page_num idx table_data all_tables w :
  Forall (fun r => r < length (store w)) all_tables ->
  exists all_tables' w',
    process_table lower page_num idx table_data all_tables w = (Ok all_tables', w')
    /\ store w `prefix_of` store w'
    /\ Forall (fun r => r < length (store w')) all_tables'
    /\ frames w' all_tables' = frames w all_tables ++ table_frames lower table_data.
Proof.
  intros Hrefs.
  destruct (le_lt_dec 2 (length table_data)) as [Hlong|Hshort].
  - destruct table_data as [|header [|row rows]]; simpl in Hlong; try lia.
    rewrite process_table_rows by discriminate.
    unfold table_frames.
    change (1 <? length (header :: row :: rows)) with true. cbv iota.
    destruct (DataFrame_of_rows (row :: rows) header) as [d|e].
    + destruct (cleaned_frame lower d) as [d' [e|]].
      * eexists _, _. split; [reflexivity|]. cbn [store].
        split; [apply prefix_app_r; reflexivity|].
        split.
        -- eapply Forall_lt_mono; [|exact Hrefs]. rewrite length_app. lia.
        -- rewrite app_nil_r. apply frames_prefix; [|exact Hrefs].
           apply prefix_app_r. reflexivity.
      * eexists _, _. split; [reflexivity|]. cbn [store].
        split; [apply prefix_app_r; reflexivity|].
        split.
        -- apply Forall_app. split.
           ++ eapply Forall_lt_mono; [|exact Hrefs]. rewrite length_app. lia.
           ++ constructor; [|constructor]. rewrite length_app. simpl. lia.
        -- unfold frames at 1. rewrite map_app. f_equal.
           ++ apply (frames_prefix w); [|exact Hrefs].
              apply prefix_app_r. reflexivity.
           ++ simpl. f_equal. apply deref_lookup. simpl.
              change (store w ++ [d; d']) with (store w ++ [d] ++ [d']).
              rewrite app_assoc. apply list_lookup_middle.
              rewrite length_app. simpl. lia.
    + eexists _, _. split; [reflexivity|]. cbn [store].
      split; [reflexivity|]. split; [exact Hrefs|].
      rewrite app_nil_r. reflexivity.
  - rewrite process_table_short by exact Hshort.
    eexists _, _. split; [reflexivity|]. cbn [store].
    split; [reflexivity|]. split; [exact Hrefs|].
    rewrite table_frames_short by exact Hshort.
    rewrite app_nil_r. reflexivity.
Qed.

Lemma process_tables_run page_num idx tables all_tables w :
  Forall (fun r => r < length (store w)) all_tables ->
  exists all_tables' w',
    process_tables lower page_num idx tables all_tables w = (Ok all_tables', w')
    /\ store w `prefix_of` store w'
    /\ Forall (fun r => r < length (store w')) all_tables'
    /\ frames w' all_tables'
       = frames w all_tables ++ flat_map (table_frames lower) tables.
Proof.
  revert idx all_tables w.
  induction tables as [|t tables IH]; intros idx all_tables w Hrefs.
  - exists all_tables, w. split; [reflexivity|]. split; [reflexivity|].
    split; [exact Hrefs|]. simpl. rewrite app_nil_r. reflexivity.
  - cbn [process_tables]. rewrite bind_run.
    destruct (process_table_run page_num idx t all_tables w Hrefs)
      as (refs1 & w1 & -> & Hp1 & Hr1 & Hf1).
    destruct (IH (S idx) refs1 w1 Hr1) as (refs2 & w2 & -> & Hp2 & Hr2 & Hf2).
    exists refs2, w2. split; [reflexivity|].
    split; [etransitivity; eassumption|]. split; [exact Hr2|].
    rewrite Hf2, Hf1. simpl. rewrite app_assoc. reflexivity.
Qed.

Lemma process_pages_run page_num pages all_tables w :
  Forall (fun r => r < length (store w)) all_tables ->
  exists all_tables' w',
    process_pages lower page_num pages all_tables w = (Ok all_tables', w')
    /\ store w `prefix_of` store w'
    /\ Forall (fun r => r < length (store w')) all_tables'
    /\ frames w' all_tables'
       = frames w all_tables ++ flat_map (flat_map (table_frames lower)) pages.
Proof.
  revert page_num all_tables w.
  induction pages as [|tables pages IH]; intros page_num all_tables w Hrefs.
  - exists all_tables, w. split; [reflexivity|]. split; [reflexivity|].
    split; [exact Hrefs|]. simpl. rewrite app_nil_r. reflexivity.
  - cbn [process_pages]. rewrite bind_run.
    destruct (process_tables_run page_num 1 tables all_tables w Hrefs)
      as (refs1 & w1 & -> & Hp1 & Hr1 & Hf1).
    destruct (IH (S page_num) refs1 w1 Hr1) as (refs2 & w2 & -> & Hp2 & Hr2 & Hf2).
    exists refs2, w2. split; [reflexivity|].
    split; [etransitivity; eassumption|]. split; [exact Hr2|].
    rewrite Hf2, Hf1. simpl. rewrite app_assoc. reflexivity.
Qed.

(** The loops never raise, and the frames behind [all_tables] at the end
    are those of the tables, each taken by itself, in page order and
    within a page in table order. *)
Lemma extract_all_tables_run pages w :
  exists all_tables w',
    extract_all_tables lower pages w = (Ok all_tables, w')
    /\ frames w' all_tables = flat_map (flat_map (table_frames lower)) pages.
Proof.
  destruct (process_pages_run 1 pages [] w) as (refs & w' & H & _ & _ & Hf);
    [constructor|].
  exists refs, w'. split; [exact H|exact Hf].
Qed.

Lemma table_frames_failed header rows :
  match DataFrame_of_rows rows header with
  | Raise _ => True
  | Ok d => snd (cleaned_frame lower d) <> None
  end ->
  table_frames lower (header :: rows) = [].
Proof.
  unfold table_frames. destruct (_ <? _); [|reflexivity].
  destruct (DataFrame_of_rows rows header) as [d|e]; [|reflexivity].
  destruct (cleaned_frame lower d) as [d' [e|]]; simpl; [reflexivity|congruence].
Qed.

Lemma flat_map_without {A B} (f : A -> list B) (before after : list A) (x : A) :
  f x = [] -> flat_map f (before ++ x :: after) = flat_map f (before ++ after).
Proof.
  intros Hx. rewrite !flat_map_app. simpl. rewrite Hx. reflexivity.
Qed.

(** C7. A raw table with fewer than two rows is skipped: the loop logs
    one warning for it (empty, or no data rows), builds no frame and
    leaves [all_tables] as it was.  A table with two rows or more goes
    to [pd.DataFrame] and the cleaning, and what becomes of it depends on
    them.  The frames collected from a document are those of its tables
    with two rows or more. *)
Theorem short_grid_is_skipped :
  (forall page_num idx (table_data : grid) all_tables w,
      length table_data < 2 ->
      process_table lower page_num idx table_data all_tables w
      = (Ok all_tables,
         mkWorld (store w)
           (log w ++ [match table_data with
                      | [] => TableEmpty page_num idx
                      | _ :: _ => TableNoDataRows page_num idx
                      end]))
      /\ table_frames lower table_data = [])
  /\ (forall page_num idx (table_data : grid) all_tables w,
      2 <= length table_data ->
      exists header rows,
        table_data = header :: rows
        /\ process_table lower page_num idx table_data all_tables w
           = match DataFrame_of_rows rows header with
             | Raise e =>
                 (Ok all_tables,
                  mkWorld (store w) (log w ++ [TableError page_num idx e]))
             | Ok d =>
                 match cleaned_frame lower d with
                 | (d', Some e) =>
                     (Ok all_tables,
                      mkWorld (store w ++ [d; d'])
                        (log w ++ [TableError page_num idx e]))
                 | (d', None) =>
                     (Ok (all_tables ++ [S (length (store w))]),
                      mkWorld (store w ++ [d; d']) (log w))
                 end
             end)
  /\ (forall pages w,
      exists all_tables w',
        extract_all_tables lower pages w = (Ok all_tables, w')
        /\ frames w' all_tables
           = flat_map (flat_map (table_frames lower))
               (map (List.filter (fun t : grid => 2 <=? length t)) pages)).
Proof.
  split; [|split].
  - intros page_num idx table_data all_tables w Hshort.
    split; [apply process_table_short|apply table_frames_short]; exact Hshort.
  - intros page_num idx table_data all_tables w Hlong.
    destruct table_data as [|header [|row rows]]; simpl in Hlong; try lia.
    exists header, (row :: rows). split; [reflexivity|].
    apply process_table_rows. discriminate.
  - intros pages w.
    destruct (extract_all_tables_run pages w) as (refs & w' & Hrun & Hf).
    exists refs, w'. split; [exact Hrun|]. rewrite Hf. clear Hrun Hf.
    induction pages as [|tables pages IH]; [reflexivity|].
    cbn [map flat_map]. rewrite <- IH.
    rewrite flat_map_filter; [reflexivity|].
    intros t Ht. apply table_frames_short. apply Nat.leb_gt in Ht. exact Ht.
Qed.

(** C8. A table whose [try] block raises, in [pd.DataFrame] or in the
    cleaning, is logged as an error and adds nothing; the loops go on,
    and the frames collected from the document are those collected from
    the document without that table: every other table is kept. *)
Theorem failed_table_is_isolated
    (pages1 pages2 : list (list grid)) (before after : list grid)
    (header : list label) (rows : list (list cell)) (e : exn) (w : world) :
  rows <> [] ->
  DataFrame_of_rows rows header = Raise e
  \/ (exists d, DataFrame_of_rows rows header = Ok d
                /\ snd (cleaned_frame lower d) = Some e) ->
  (forall page_num idx all_tables w0,
      Forall (fun r => r < length (store w0)) all_tables ->
      exists w1,
        process_table lower page_num idx (header :: rows) all_tables w0
        = (Ok all_tables, w1)
        /\ log w1 = log w0 ++ [TableError page_num idx e]
        /\ frames w1 all_tables = frames w0 all_tables)
  /\ exists all_tables w' all_tables0 w0,
      extract_all_tables lower
        (pages1 ++ (before ++ (header :: rows) :: after) :: pages2) w
      = (Ok all_tables, w')
      /\ extract_all_tables lower (pages1 ++ (before ++ after) :: pages2) w
         = (Ok all_tables0, w0)
      /\ frames w' all_tables = frames w0 all_tables0
      /\ frames w' all_tables
         = flat_map (flat_map (table_frames lower))
             (pages1 ++ (before ++ after) :: pages2).
Proof.
  intros Hrows Hfail. split.
  - intros page_num idx all_tables w0 Hrefs.
    rewrite process_table_rows by exact Hrows.
    destruct Hfail as [->|(d & -> & Hd)].
    + eexists. split; [reflexivity|]. split; reflexivity.
    + destruct (cleaned_frame lower d) as [d' o]. simpl in Hd. subst o.
      eexists. split; [reflexivity|]. split; [reflexivity|].
      apply frames_prefix; [|exact Hrefs]. simpl. apply prefix_app_r. reflexivity.
  - assert (Hnone : table_frames lower (header :: rows) = []).
    { apply table_frames_failed. destruct Hfail as [->|(d & -> & Hd)]; [exact I|].
      rewrite Hd. discriminate. }
    destruct (extract_all_tables_run
                (pages1 ++ (before ++ (header :: rows) :: after) :: pages2) w)
      as (refs & w' & Hrun & Hf).
    destruct (extract_all_tables_run (pages1 ++ (before ++ after) :: pages2) w)
      as (refs0 & w0 & Hrun0 & Hf0).
    assert (Hsame : flat_map (flat_map (table_frames lower))
                      (pages1 ++ (before ++ (header :: rows) :: after) :: pages2)
                    = flat_map (flat_map (table_frames lower))
                        (pages1 ++ (before ++ after) :: pages2)).
    { rewrite (flat_map_app _ pages1), (flat_map_app _ pages1). cbn [flat_map].
      f_equal. f_equal. apply flat_map_without. exact Hnone. }
    exists refs, w', refs0, w0.
    split; [exact Hrun|]. split; [exact Hrun0|].
    split; [rewrite Hf, Hf0; exact Hsame|rewrite Hf; exact Hsame].
Qed.

End LoopProperties.

Lemma short_grid_is_skipped_witness :
  process_table ascii_lower 2 1 header_only_grid [] (mkWorld [] [])
  = (Ok [], mkWorld [] [TableNoDataRows 2 1])
  /\ table_frames ascii_lower header_only_grid = [].
Proof.
  apply (proj1 (short_grid_is_skipped ascii_lower) 2 1 header_only_grid [] (mkWorld [] [])).
  simpl. lia.
Defined.

(** A row that is too short beside a row of full width does not make
    [pd.DataFrame] fail: the missing cell is [None]. *)
Example short_row_is_filled_up :
  DataFrame_of_rows (tl statement_grid) (hd [] statement_grid)
  = Ok (mkDataFrame
          [Some (cps "Date"); Some (cps "Amount"); Some (cps "Note")] 2
          [[Some (cps " 01/02 "); Some (cps "03/02")];
           [Some (cps "HKD 1,234.50"); None];
           [Some (cps " rent "); None]]).
Proof. reflexivity. Qed.

Lemma failed_table_is_isolated_witness :
  exists all_tables w' all_tables0 w0,
    extract_all_tables ascii_lower
      ([[statement_grid]] ++ ([header_only_grid] ++ wide_row_grid :: [statement_grid]) :: [])
      (mkWorld [] [])
    = (Ok all_tables, w')
    /\ extract_all_tables ascii_lower
         ([[statement_grid]] ++ ([header_only_grid] ++ [statement_grid]) :: [])
         (mkWorld [] [])
       = (Ok all_tables0, w0)
    /\ frames w' all_tables = frames w0 all_tables0
    /\ frames w' all_tables
       = flat_map (flat_map (table_frames ascii_lower))
           ([[statement_grid]] ++ ([header_only_grid] ++ [statement_grid]) :: []).
Proof.
  apply (failed_table_is_isolated ascii_lower
           [[statement_grid]] [] [header_only_grid] [statement_grid]
           (hd [] wide_row_grid) (tl wide_row_grid) ValueError (mkWorld [] [])).
  - discriminate.
  - left. reflexivity.
Defined.

(* ================================================================== *)
(** * Further properties of the code *)

(** ** [clean_amount]: what is kept and what is removed *)

Local Open Scope N_scope.

Lemma remove_char_app c a b :
  remove_char c (a ++ b) = remove_char c a ++ remove_char c b.
Proof. unfold remove_char. apply List.filter_app. Qed.

Lemma remove_char_cons_same c s : remove_char c (c :: s) = remove_char c s.
Proof. unfold remove_char. simpl. rewrite N.eqb_refl. reflexivity. Qed.

Lemma remove_char_idem c s : remove_char c (remove_char c s) = remove_char c s.
Proof. apply remove_char_without, count_remove_char. Qed.

(** Lines 36-38 remove periods and nothing else. *)
Lemma keep_last_period_other_chars s :
  remove_char dot (keep_last_period s) = remove_char dot s.
Proof.
  destruct (Nat.eq_dec (count dot s) 0%nat) as [Hz|Hnz].
  - rewrite keep_last_period_fixed; [reflexivity|lia].
  - destruct (last_sep_exists dot s) as (a & b & -> & Hb); [lia|].
    rewrite (keep_last_period_at a b Hb), !remove_char_app, remove_char_idem.
    reflexivity.
Qed.

Lemma filter_filter_andb {A} (f g : A -> bool) l :
  List.filter g (List.filter f l) = List.filter (fun x => f x && g x) l.
Proof.
  induction l as [|x l IH]; simpl; [reflexivity|].
  destruct (f x); simpl; [|exact IH].
  destruct (g x); rewrite IH; reflexivity.
Qed.

Lemma filter_ext_bool {A} (f g : A -> bool) l :
  (forall x, f x = g x) -> List.filter f l = List.filter g l.
Proof.
  intros H. induction l as [|x l IH]; simpl; [reflexivity|].
  rewrite H, IH. reflexivity.
Qed.

Lemma keep_last_period_empty s : keep_last_period s = [] -> s = [].
Proof.
  destruct (Nat.eq_dec (count dot s) 0%nat) as [Hz|Hnz].
  - rewrite keep_last_period_fixed; [tauto|lia].
  - destruct (last_sep_exists dot s) as (a & b & -> & Hb); [lia|].
    rewrite (keep_last_period_at a b Hb). intros H.
    apply app_eq_nil in H. destruct H as [_ H]. discriminate.
Qed.

(** X1. A cleaned amount has at most one period, whatever the text was. *)
Theorem clean_amount_at_most_one_period (x : pystr) :
  exists r, clean_amount (Some x) = Some r /\ (count dot r <= 1)%nat.
Proof.
  exists (keep_last_period (re_sub_non_amount x)).
  split; [apply clean_amount_str|apply keep_last_period_count].
Qed.

(** X2. [clean_amount] loses no digit, comma or minus sign and invents
    none: apart from periods, the cleaned amount is the text with the
    other characters dropped; its digits are the digits of the text, in
    their order. *)
Theorem clean_amount_keeps_digits (x : pystr) :
  exists r,
    clean_amount (Some x) = Some r
    /\ remove_char dot r
       = List.filter (fun c => is_digit c || (c =? comma) || (c =? minus)) x
    /\ List.filter is_digit r = List.filter is_digit x.
Proof.
  exists (keep_last_period (re_sub_non_amount x)).
  split; [apply clean_amount_str|].
  assert (H : remove_char dot (keep_last_period (re_sub_non_amount x))
              = List.filter (fun c => is_digit c || (c =? comma) || (c =? minus)) x).
  { rewrite keep_last_period_other_chars. unfold remove_char, re_sub_non_amount.
    rewrite filter_filter_andb. apply filter_ext_bool. intros c.
    unfold amount_char, is_digit, dot, comma, minus.
    destruct (c =? 46) eqn:E.
    - apply N.eqb_eq in E. subst c. reflexivity.
    - simpl. rewrite !orb_false_r, andb_true_r. reflexivity. }
  split; [exact H|].
  assert (Hd : forall s, List.filter is_digit (remove_char dot s) = List.filter is_digit s).
  { intros s. unfold remove_char. rewrite filter_filter_andb.
    apply filter_ext_bool. intros c. unfold is_digit, dot.
    destruct (c =? 46) eqn:E; [|apply andb_true_l].
    apply N.eqb_eq in E. subst c. reflexivity. }
  rewrite <- (Hd (keep_last_period _)), H, filter_filter_andb.
  apply filter_ext_bool. intros c. unfold is_digit, comma, minus.
  destruct ((48 <=? c) && (c <=? 57)) eqn:E; simpl; [reflexivity|].
  destruct (c =? 44) eqn:E1; [apply N.eqb_eq in E1; subst c; reflexivity|].
  destruct (c =? 45) eqn:E2; [apply N.eqb_eq in E2; subst c; reflexivity|].
  reflexivity.
Qed.

(** X3. The texts [clean_amount] returns as they are, are those made of
    digits, periods, commas and minus signs with at most one period. *)
Theorem clean_amount_fixed_points (s : pystr) :
  clean_amount (Some s) = Some s
  <-> Forall (fun c => amount_char c = true) s /\ (count dot s <= 1)%nat.
Proof.
  split.
  - rewrite clean_amount_str. intros H. injection H as H. split.
    + rewrite <- H. apply keep_last_period_amount_chars, re_sub_amount_chars.
    + rewrite <- H. apply keep_last_period_count.
  - intros [Hs Hc]. apply clean_amount_result_fixed; assumption.
Qed.

(** X4. A cell with text becomes the empty string, and not a missing
    cell, exactly when the text has no digit, period, comma or minus
    sign. *)
Theorem clean_amount_empty_result (s : pystr) :
  clean_amount (Some s) = Some []
  <-> Forall (fun c => amount_char c = false) s.
Proof.
  rewrite clean_amount_str. split.
  - intros H. injection H as H. apply keep_last_period_empty in H.
    unfold re_sub_non_amount in H.
    induction s as [|c s IH]; [constructor|].
    simpl in H. destruct (amount_char c) eqn:E; [discriminate|].
    constructor; [exact E|apply IH, H].
  - intros H. f_equal.
    assert (Hre : re_sub_non_amount s = []).
    { unfold re_sub_non_amount. induction H as [|c s Hc _ IH]; simpl; [reflexivity|].
      rewrite Hc. exact IH. }
    rewrite Hre. reflexivity.
Qed.

(** ** [strip] *)

Lemma lstrip_starts_clean s : starts_clean (lstrip s).
Proof.
  induction s as [|c s IH]; simpl; [exact I|].
  destruct (is_space c) eqn:E; [exact IH|exact E].
Qed.

Lemma lstrip_id s : starts_clean s -> lstrip s = s.
Proof.
  destruct s as [|c s]; simpl; [reflexivity|]. intros ->. reflexivity.
Qed.

Lemma lstrip_keeps_last u c :
  is_space c = false -> exists u', lstrip (u ++ [c]) = u' ++ [c].
Proof.
  intros Hc. induction u as [|x u IH]; simpl.
  - rewrite Hc. exists []. reflexivity.
  - destruct (is_space x); [exact IH|]. exists (x :: u). reflexivity.
Qed.

Lemma rstrip_ends_clean s : starts_clean (rev (rstrip s)).
Proof. unfold rstrip. rewrite rev_involutive. apply lstrip_starts_clean. Qed.

Lemma rstrip_starts_clean s : starts_clean s -> starts_clean (rstrip s).
Proof.
  destruct s as [|c s]; [intros _; exact I|].
  simpl. intros Hc. unfold rstrip. simpl.
  destruct (lstrip_keeps_last (rev s) c Hc) as [u' ->].
  rewrite rev_app_distr. simpl. exact Hc.
Qed.

Lemma strip_clean s : starts_clean (strip s) /\ starts_clean (rev (strip s)).
Proof.
  unfold strip. split.
  - apply rstrip_starts_clean, lstrip_starts_clean.
  - apply rstrip_ends_clean.
Qed.

Lemma strip_id s : starts_clean s -> starts_clean (rev s) -> strip s = s.
Proof.
  intros H1 H2. unfold strip, rstrip.
  rewrite (lstrip_id s H1), (lstrip_id (rev s) H2). apply rev_involutive.
Qed.

Lemma strip_idem s : strip (strip s) = strip s.
Proof. destruct (strip_clean s). apply strip_id; assumption. Qed.

Lemma lstrip_split s :
  exists a, s = a ++ lstrip s /\ Forall (fun c => is_space c = true) a.
Proof.
  induction s as [|c s IH]; simpl.
  - exists []. split; [reflexivity|constructor].
  - destruct (is_space c) eqn:E.
    + destruct IH as (a & Ha & Hs). exists (c :: a). split.
      * simpl. rewrite <- Ha. reflexivity.
      * constructor; assumption.
    + exists []. split; [reflexivity|constructor].
Qed.

(** [strip] takes whitespace, and only whitespace, off both ends: the
    text is whitespace, then the stripped text, then whitespace; the
    stripped text neither starts nor ends with whitespace, and stripping
    it again changes nothing. *)
Lemma strip_takes_surrounding_whitespace (s : pystr) :
  (exists a b,
      s = a ++ strip s ++ b
      /\ Forall (fun c => is_space c = true) a
      /\ Forall (fun c => is_space c = true) b)
  /\ starts_clean (strip s)
  /\ starts_clean (rev (strip s))
  /\ strip (strip s) = strip s.
Proof.
  split; [|split; [apply strip_clean|split; [apply strip_clean|apply strip_idem]]].
  destruct (lstrip_split s) as (a & Ha & Hsa).
  destruct (lstrip_split (rev (lstrip s))) as (b & Hb & Hsb).
  exists a, (rev b). split; [|split].
  - unfold strip, rstrip.
    rewrite <- rev_app_distr, <- Hb, rev_involutive. exact Ha.
  - exact Hsa.
  - apply List.Forall_forall. intros c Hc. apply in_rev in Hc.
    revert c Hc. apply List.Forall_forall. exact Hsb.
Qed.

(** ** The cells of a cleaned table *)

Local Open Scope nat_scope.


Lemma positions_from_complete i col cols q :
  cols !! q = Some col -> In (i + q) (positions_from i col cols).
Proof.
  revert i q. induction cols as [|c cols IH]; intros i q; [discriminate|].
  destruct q as [|q]; simpl.
  - intros [= ->]. rewrite (proj2 (label_eqb_eq col col) eq_refl).
    left. lia.
  - intros Hq. replace (i + S q) with (S i + q) by lia.
    destruct (label_eqb c col); [right|]; apply IH, Hq.
Qed.

Lemma positions_single col cols p j :
  positions col cols = [p] -> cols !! j = Some col -> j = p.
Proof.
  intros Hp Hj. pose proof (positions_from_complete 0 col cols j Hj) as Hin.
  fold (positions col cols) in Hin. rewrite Hp in Hin. simpl in Hin.
  destruct Hin as [<-|[]]. reflexivity.
Qed.

Lemma positions_from_length i k col cols :
  length (positions_from i col cols) = length (positions_from k col cols).
Proof.
  revert i k. induction cols as [|c cols IH]; intros i k; simpl; [reflexivity|].
  destruct (label_eqb c col); simpl; rewrite (IH (S i) (S k)); reflexivity.
Qed.

Lemma In_positions col cols : In col cols -> 1 <= length (positions col cols).
Proof.
  intros Hin. apply list_elem_of_In, list_elem_of_lookup in Hin.
  destruct Hin as [q Hq].
  pose proof (positions_from_complete 0 col cols q Hq) as H.
  unfold positions. destruct (positions_from 0 col cols); [destruct H|simpl; lia].
Qed.

Lemma NoDup_filter_unique (P : label -> bool) cols :
  (forall col, In col cols -> P col = true -> length (positions col cols) <= 1) ->
  List.NoDup (List.filter P cols).
Proof.
  induction cols as [|c cols IH]; intros H; simpl; [constructor|].
  assert (Hrest : forall col, In col cols -> P col = true ->
                              length (positions col cols) <= 1).
  { intros col Hin HP. specialize (H col (or_intror Hin) HP).
    unfold positions in *. simpl in H.
    rewrite (positions_from_length 0 1).
    destruct (label_eqb c col); simpl in H; lia. }
  destruct (P c) eqn:HP; [|apply IH, Hrest].
  constructor; [|apply IH, Hrest].
  intros Hin. apply filter_In in Hin. destruct Hin as [Hin _].
  specialize (H c (or_introl eq_refl) HP).
  pose proof (In_positions c cols Hin) as H1.
  unfold positions in *. simpl in H.
  rewrite (proj2 (label_eqb_eq c c) eq_refl) in H. simpl in H.
  rewrite (positions_from_length 1 0) in H. lia.
Qed.

(** A loop over distinct labels that each stand once in the header maps
    [f] over the columns of these labels and leaves the others. *)
Lemma run_columns_maps (f : cell -> cell) step cols d :
  (forall col d p, positions col (columns d) = [p] ->
                   step col d = Ok (set_column_at p (map f (column_at p d)) d)) ->
  List.NoDup cols ->
  (forall col, In col cols -> length (positions col (columns d)) = 1) ->
  snd (run_columns step cols d) = None
  /\ columns (fst (run_columns step cols d)) = columns d
  /\ index (fst (run_columns step cols d)) = index d
  /\ forall j,
      data (fst (run_columns step cols d)) !! j
      = match columns d !! j with
        | Some c =>
            if existsb (label_eqb c) cols then map f <$> data d !! j
            else data d !! j
        | None => data d !! j
        end.
Proof.
  intros Hstep. revert d.
  induction cols as [|col cols IH]; intros d Hnd Hone.
  - simpl. repeat split. intros j. destruct (columns d !! j); reflexivity.
  - inversion Hnd as [|? ? Hnotin Hnd']; subst.
    assert (Hp : exists p, positions col (columns d) = [p]).
    { specialize (Hone col (or_introl eq_refl)).
      destruct (positions col (columns d)) as [|p [|q ps]]; simpl in Hone; try lia.
      exists p. reflexivity. }
    destruct Hp as [p Hp]. cbn [run_columns]. rewrite (Hstep col d p Hp).
    set (d1 := set_column_at p (map f (column_at p d)) d).
    destruct (IH d1 Hnd') as (Hs & Hc & Hi & Hd).
    { intros c Hc. apply Hone. right. exact Hc. }
    split; [exact Hs|]. split; [exact Hc|]. split; [exact Hi|].
    intros j. rewrite Hd. subst d1. cbn [columns data set_column_at].
    assert (Hpcol : columns d !! p = Some col).
    { apply positions_lookup. rewrite Hp. left. reflexivity. }
    destruct (columns d !! j) as [c|] eqn:Hj.
    + cbn [existsb]. destruct (label_eqb c col) eqn:E.
      * apply label_eqb_eq in E. subst c.
        assert (j = p) by (eapply positions_single; eassumption). subst j.
        assert (Hex : existsb (label_eqb col) cols = false).
        { destruct (existsb (label_eqb col) cols) eqn:Hex; [|reflexivity].
          exfalso. apply Hnotin. apply existsb_exists in Hex.
          destruct Hex as (x & Hx & Hxe). apply label_eqb_eq in Hxe. subst x.
          exact Hx. }
        rewrite Hex. simpl. unfold column_at.
        destruct (data d !! p) as [x|] eqn:Hx.
        -- rewrite list_lookup_insert_eq by (eapply lookup_lt_Some; exact Hx).
           reflexivity.
        -- rewrite list_insert_ge by (apply lookup_ge_None; exact Hx).
           rewrite Hx. reflexivity.
      * simpl.
        assert (Hne : p <> j).
        { intros <-. rewrite Hpcol in Hj. injection Hj as <-.
          rewrite (proj2 (label_eqb_eq col col) eq_refl) in E. discriminate. }
        rewrite list_lookup_insert_ne by exact Hne. reflexivity.
    + assert (Hne : p <> j) by (intros <-; congruence).
      rewrite list_lookup_insert_ne by exact Hne. reflexivity.
Qed.

Lemma existsb_filter_label (P : label -> bool) c cols :
  In c cols -> existsb (label_eqb c) (List.filter P cols) = P c.
Proof.
  intros Hin. destruct (P c) eqn:HP.
  - apply existsb_exists. exists c. split.
    + apply filter_In. split; assumption.
    + apply label_eqb_eq. reflexivity.
  - destruct (existsb _ _) eqn:E; [|reflexivity].
    apply existsb_exists in E. destruct E as (x & Hx & Hxe).
    apply label_eqb_eq in Hxe. subst x. apply filter_In in Hx.
    destruct Hx as [_ Hx]. congruence.
Qed.

Section CellProperties.

Variable lower : pystr -> pystr.

Lemma classified_positions_one d col :
  no_classified_duplicate lower d = true ->
  In col (columns d) -> classified lower col = true ->
  length (positions col (columns d)) = 1.
Proof.
  intros Hnd Hin Hc.
  pose proof (no_classified_duplicate_positions lower d col Hnd Hin Hc).
  pose proof (In_positions col (columns d) Hin). lia.
Qed.

(** Without a classified label standing twice, the cleaned copy holds,
    column by column, the cells of the input through [cleaned_cell]. *)
Lemma cleaned_frame_columns d :
  no_classified_duplicate lower d = true ->
  snd (cleaned_frame lower d) = None
  /\ columns (fst (cleaned_frame lower d)) = columns d
  /\ index (fst (cleaned_frame lower d)) = index d
  /\ forall j,
      data (fst (cleaned_frame lower d)) !! j
      = match columns d !! j with
        | Some col => map (cleaned_cell lower col) <$> data d !! j
        | None => data d !! j
        end.
Proof.
  intros Hnd. unfold cleaned_frame.
  destruct (run_columns_maps (fun v => Some (strip (str v))) clean_date_column
              (List.filter (is_date_col lower) (columns d)) d)
    as (Hs1 & Hc1 & Hi1 & Hd1).
  { intros col d0 p Hp. unfold clean_date_column. rewrite Hp. reflexivity. }
  { apply NoDup_filter_unique. intros col Hin Hdate.
    apply (no_classified_duplicate_positions lower d col Hnd Hin).
    unfold classified. rewrite Hdate. reflexivity. }
  { intros col Hc. destruct (date_cols_classified lower d col Hc).
    apply classified_positions_one; assumption. }
  destruct (run_columns clean_date_column _ d) as [d1 o1]. simpl in *. subst o1.
  destruct (run_columns_maps clean_amount clean_amount_column
              (List.filter (is_amount_col lower) (columns d)) d1)
    as (Hs2 & Hc2 & Hi2 & Hd2).
  { intros col d0 p Hp. unfold clean_amount_column. rewrite Hp. reflexivity. }
  { apply NoDup_filter_unique. intros col Hin Hamount.
    apply (no_classified_duplicate_positions lower d col Hnd Hin).
    unfold classified. rewrite Hamount. apply orb_true_r. }
  { intros col Hc. rewrite Hc1. destruct (amount_cols_classified lower d col Hc).
    apply classified_positions_one; assumption. }
  split; [exact Hs2|]. split; [congruence|]. split; [congruence|].
  intros j. rewrite Hd2, Hc1, Hd1.
  destruct (columns d !! j) as [col|] eqn:Hj; [|reflexivity].
  assert (Hin : In col (columns d)).
  { apply list_elem_of_In, list_elem_of_lookup. exists j. exact Hj. }
  rewrite !existsb_filter_label by exact Hin.
  unfold cleaned_cell.
  destruct (is_date_col lower col), (is_amount_col lower col);
    destruct (data d !! j) as [x|]; simpl; try reflexivity.
  - rewrite map_map. reflexivity.
  - rewrite map_id. reflexivity.
Qed.

End CellProperties.


Lemma clean_amount_starts_clean x :
  exists r, clean_amount (Some x) = Some r
            /\ starts_clean r /\ starts_clean (rev r) /\ strip r = r.
Proof.
  exists (keep_last_period (re_sub_non_amount x)).
  pose proof (keep_last_period_amount_chars _ (re_sub_amount_chars x)) as Hr.
  split; [apply clean_amount_str|].
  assert (Hs : strip (keep_last_period (re_sub_non_amount x))
               = keep_last_period (re_sub_non_amount x)) by apply strip_fixed, Hr.
  rewrite <- Hs. destruct (strip_clean (keep_last_period (re_sub_non_amount x))).
  repeat split; try assumption. apply strip_idem.
Qed.

Lemma clean_amount_twice v : clean_amount (clean_amount v) = clean_amount v.
Proof.
  destruct v as [x|]; [|reflexivity].
  rewrite clean_amount_str. apply clean_amount_result_fixed.
  - apply keep_last_period_amount_chars, re_sub_amount_chars.
  - apply keep_last_period_count.
Qed.

Section CleanedTableProperties.

Variable lower : pystr -> pystr.

Lemma cleaned_cell_idem col v :
  cleaned_cell lower col (cleaned_cell lower col v) = cleaned_cell lower col v.
Proof.
  unfold cleaned_cell.
  destruct (is_date_col lower col), (is_amount_col lower col).
  - destruct (clean_amount_starts_clean (strip (str v))) as (r & Hr & _ & _ & Hs).
    rewrite Hr. simpl. rewrite Hs, <- Hr. apply clean_amount_twice.
  - simpl. rewrite strip_idem. reflexivity.
  - apply clean_amount_twice.
  - reflexivity.
Qed.

(** What [clean_table_data] returns on a table without a classified
    label standing twice. *)
Lemma clean_table_data_returns df d w :
  store w !! df = Some d ->
  no_classified_duplicate lower d = true ->
  clean_table_data lower df w
  = (Ok (length (store w)),
     mkWorld (store w ++ [fst (cleaned_frame lower d)]) (log w)).
Proof.
  intros Hdf Hnd. rewrite clean_table_data_run, (deref_lookup w df d Hdf).
  destruct (cleaned_frame_columns lower d Hnd) as (-> & _). reflexivity.
Qed.

Lemma cleaned_frame_no_duplicate d :
  no_classified_duplicate lower (fst (cleaned_frame lower d))
  = no_classified_duplicate lower d.
Proof.
  destruct (cleaned_frame_cleaned_from lower d) as (Hc & _).
  unfold no_classified_duplicate. rewrite Hc. reflexivity.
Qed.

Lemma cleaned_frame_idem d :
  no_classified_duplicate lower d = true ->
  fst (cleaned_frame lower (fst (cleaned_frame lower d)))
  = fst (cleaned_frame lower d).
Proof.
  intros Hnd.
  destruct (cleaned_frame_columns lower d Hnd) as (_ & Hc & Hi & Hd).
  assert (Hnd' : no_classified_duplicate lower (fst (cleaned_frame lower d)) = true)
    by (rewrite cleaned_frame_no_duplicate; exact Hnd).
  destruct (cleaned_frame_columns lower _ Hnd') as (_ & Hc' & Hi' & Hd').
  set (d1 := fst (cleaned_frame lower d)) in *.
  set (d2 := fst (cleaned_frame lower d1)) in *.
  assert (Hdata : data d2 = data d1).
  { apply list_eq. intros j. rewrite Hd', Hc, Hd.
    destruct (columns d !! j) as [col|]; [|reflexivity].
    destruct (data d !! j) as [x|]; simpl; [|reflexivity].
    f_equal. rewrite map_map. apply map_ext. intros v. apply cleaned_cell_idem. }
  destruct d1 as [c1 i1 x1], d2 as [c2 i2 x2]. simpl in *. congruence.
Qed.




(** X8. Cleaning a cleaned table changes nothing: [clean_table_data] on
    the table it returned returns a new table with the same header, the
    same rows and the same cells. *)
Theorem clean_table_data_twice (df : ref) (d : DataFrame) (w : world) :
  store w !! df = Some d ->
  no_classified_duplicate lower d = true ->
  exists df1 w1 df2 w2 d',
    clean_table_data lower df w = (Ok df1, w1)
    /\ clean_table_data lower df1 w1 = (Ok df2, w2)
    /\ df1 <> df2
    /\ store w2 !! df1 = Some d'
    /\ store w2 !! df2 = Some d'.
Proof.
  intros Hdf Hnd.
  set (d1 := fst (cleaned_frame lower d)).
  set (w1 := mkWorld (store w ++ [d1]) (log w)).
  assert (Hdf1 : store w1 !! length (store w) = Some d1)
    by (apply list_lookup_middle; reflexivity).
  assert (Hnd1 : no_classified_duplicate lower d1 = true)
    by (subst d1; rewrite cleaned_frame_no_duplicate; exact Hnd).
  exists (length (store w)), w1, (length (store w1)),
    (mkWorld (store w1 ++ [d1]) (log w1)), d1.
  split; [apply clean_table_data_returns; assumption|].
  split.
  - rewrite (clean_table_data_returns _ d1 w1 Hdf1 Hnd1).
    subst d1. rewrite (cleaned_frame_idem d Hnd). reflexivity.
  - subst w1. cbn [store]. rewrite length_app. cbn [length].
    split; [lia|]. split.
    + apply lookup_app_l_Some. apply list_lookup_middle. reflexivity.
    + apply list_lookup_middle. rewrite length_app. reflexivity.
Qed.

End CleanedTableProperties.




Lemma clean_table_data_twice_witness :
  exists df1 w1 df2 w2 d',
    clean_table_data ascii_lower 0 (mkWorld [statement_frame] []) = (Ok df1, w1)
    /\ clean_table_data ascii_lower df1 w1 = (Ok df2, w2)
    /\ df1 <> df2
    /\ store w2 !! df1 = Some d'
    /\ store w2 !! df2 = Some d'.
Proof.
  apply (clean_table_data_twice ascii_lower 0 statement_frame
           (mkWorld [statement_frame] [])); reflexivity.
Defined.

(** ** The table loop: accounting, references, order *)

Lemma NoDup_snoc (l : list nat) r :
  List.NoDup l -> ~ In r l -> List.NoDup (l ++ [r]).
Proof.
  induction 1 as [|x l Hx Hnd IH]; intros Hr; simpl.
  - constructor; [tauto|constructor].
  - constructor.
    + intros Hin. apply in_app_or in Hin. destruct Hin as [Hin|[<-|[]]].
      * exact (Hx Hin).
      * apply Hr. left. reflexivity.
    + apply IH. intros Hin. apply Hr. right. exact Hin.
Qed.

Lemma width_lookup (rows : list (list cell)) i row :
  rows !! i = Some row -> length row <= width rows.
Proof.
  revert i. induction rows as [|r rows IH]; intros [|i]; simpl; try discriminate.
  - intros [= ->]. lia.
  - intros H. specialize (IH i H). fold (width rows). lia.
Qed.


Section LoopAccounting.

Variable lower : pystr -> pystr.

(** One table: one more frame, or one more line in the log. *)
Lemma process_table_account page_num idx table_data all_tables w :
  exists all_tables' w',
    process_table lower page_num idx table_data all_tables w = (Ok all_tables', w')
    /\ length all_tables' + length (log w')
       = S (length all_tables + length (log w)).
Proof.
  destruct (le_lt_dec 2 (length table_data)) as [Hlong|Hshort].
  - destruct table_data as [|header [|row rows]]; simpl in Hlong; try lia.
    rewrite process_table_rows by discriminate.
    destruct (DataFrame_of_rows (row :: rows) header) as [d|e].
    + destruct (cleaned_frame lower d) as [d' [e|]];
        eexists _, _; (split; [reflexivity|]); cbn [log];
        rewrite length_app; simpl; lia.
    + eexists _, _. split; [reflexivity|]. cbn [log].
      rewrite length_app. simpl. lia.
  - rewrite process_table_short by exact Hshort.
    eexists _, _. split; [reflexivity|]. cbn [log].
    rewrite length_app. simpl. lia.
Qed.

Lemma process_tables_account page_num idx tables all_tables w :
  exists all_tables' w',
    process_tables lower page_num idx tables all_tables w = (Ok all_tables', w')
    /\ length all_tables' + length (log w')
       = length all_tables + length (log w) + length tables.
Proof.
  revert idx all_tables w.
  induction tables as [|t tables IH]; intros idx all_tables w.
  - exists all_tables, w. split; [reflexivity|]. simpl. lia.
  - cbn [process_tables]. rewrite bind_run.
    destruct (process_table_account page_num idx t all_tables w)
      as (refs1 & w1 & -> & H1).
    destruct (IH (S idx) refs1 w1) as (refs2 & w2 & -> & H2).
    exists refs2, w2. split; [reflexivity|]. simpl. lia.
Qed.

Lemma process_pages_account page_num pages all_tables w :
  exists all_tables' w',
    process_pages lower page_num pages all_tables w = (Ok all_tables', w')
    /\ length all_tables' + length (log w')
       = length all_tables + length (log w) + length (concat pages).
Proof.
  revert page_num all_tables w.
  induction pages as [|tables pages IH]; intros page_num all_tables w.
  - exists all_tables, w. split; [reflexivity|]. simpl. lia.
  - cbn [process_pages]. rewrite bind_run.
    destruct (process_tables_account page_num 1 tables all_tables w)
      as (refs1 & w1 & -> & H1).
    destruct (IH (S page_num) refs1 w1) as (refs2 & w2 & -> & H2).
    exists refs2, w2. split; [reflexivity|].
    simpl. rewrite length_app. lia.
Qed.

(** X9. Every raw table of a document is accounted for: it adds one
    frame to [all_tables] or one warning or error to the log, and never
    both; so the frames kept and the lines logged add up to the number
    of tables. *)
Theorem every_table_is_accounted_for (pages : list (list grid)) (w : world) :
  exists all_tables w',
    extract_all_tables lower pages w = (Ok all_tables, w')
    /\ length all_tables + length (log w')
       = length (log w) + length (concat pages).
Proof.
  destruct (process_pages_account 1 pages [] w) as (refs & w' & H & Hn).
  exists refs, w'. split; [exact H|]. simpl in Hn. lia.
Qed.

Lemma process_table_refs n0 page_num idx table_data all_tables w :
  n0 <= length (store w) ->
  Forall (fun r => n0 <= r < length (store w)) all_tables ->
  List.NoDup all_tables ->
  exists all_tables' w',
    process_table lower page_num idx table_data all_tables w = (Ok all_tables', w')
    /\ store w `prefix_of` store w'
    /\ Forall (fun r => n0 <= r < length (store w')) all_tables'
    /\ List.NoDup all_tables'.
Proof.
  intros Hn0 Hrefs Hnd.
  assert (Hgrow : forall extra,
             Forall (fun r => n0 <= r < length (store w ++ extra)) all_tables).
  { intros extra. eapply Forall_impl; [exact Hrefs|].
    intros r Hr. simpl in *. rewrite length_app. lia. }
  destruct (le_lt_dec 2 (length table_data)) as [Hlong|Hshort].
  - destruct table_data as [|header [|row rows]]; simpl in Hlong; try lia.
    rewrite process_table_rows by discriminate.
    destruct (DataFrame_of_rows (row :: rows) header) as [d|e].
    + destruct (cleaned_frame lower d) as [d' [e|]].
      * eexists _, _. split; [reflexivity|]. cbn [store].
        split; [apply prefix_app_r; reflexivity|].
        split; [apply Hgrow|exact Hnd].
      * eexists _, _. split; [reflexivity|]. cbn [store].
        split; [apply prefix_app_r; reflexivity|]. split.
        -- apply Forall_app. split; [apply Hgrow|].
           constructor; [|constructor]. rewrite length_app. simpl. lia.
        -- apply NoDup_snoc; [exact Hnd|]. intros Hin.
           apply list_elem_of_In in Hin.
           rewrite Forall_forall in Hrefs. specialize (Hrefs _ Hin). simpl in Hrefs. lia.
    + eexists _, _. split; [reflexivity|]. cbn [store].
      split; [reflexivity|]. split; assumption.
  - rewrite process_table_short by exact Hshort.
    eexists _, _. split; [reflexivity|]. cbn [store].
    split; [reflexivity|]. split; assumption.
Qed.

Lemma process_tables_refs n0 page_num idx tables all_tables w :
  n0 <= length (store w) ->
  Forall (fun r => n0 <= r < length (store w)) all_tables ->
  List.NoDup all_tables ->
  exists all_tables' w',
    process_tables lower page_num idx tables all_tables w = (Ok all_tables', w')
    /\ store w `prefix_of` store w'
    /\ Forall (fun r => n0 <= r < length (store w')) all_tables'
    /\ List.NoDup all_tables'.
Proof.
  revert idx all_tables w.
  induction tables as [|t tables IH]; intros idx all_tables w Hn0 Hrefs Hnd.
  - exists all_tables, w. split; [reflexivity|]. split; [reflexivity|].
    split; assumption.
  - cbn [process_tables]. rewrite bind_run.
    destruct (process_table_refs n0 page_num idx t all_tables w Hn0 Hrefs Hnd)
      as (refs1 & w1 & -> & Hp1 & Hr1 & Hnd1).
    destruct (IH (S idx) refs1 w1) as (refs2 & w2 & -> & Hp2 & Hr2 & Hnd2);
      [apply prefix_length in Hp1; lia|exact Hr1|exact Hnd1|].
    exists refs2, w2. split; [reflexivity|].
    split; [etransitivity; eassumption|]. split; assumption.
Qed.

Lemma process_pages_refs n0 page_num pages all_tables w :
  n0 <= length (store w) ->
  Forall (fun r => n0 <= r < length (store w)) all_tables ->
  List.NoDup all_tables ->
  exists all_tables' w',
    process_pages lower page_num pages all_tables w = (Ok all_tables', w')
    /\ store w `prefix_of` store w'
    /\ Forall (fun r => n0 <= r < length (store w')) all_tables'
    /\ List.NoDup all_tables'.
Proof.
  revert page_num all_tables w.
  induction pages as [|tables pages IH]; intros page_num all_tables w Hn0 Hrefs Hnd.
  - exists all_tables, w. split; [reflexivity|]. split; [reflexivity|].
    split; assumption.
  - cbn [process_pages]. rewrite bind_run.
    destruct (process_tables_refs n0 page_num 1 tables all_tables w Hn0 Hrefs Hnd)
      as (refs1 & w1 & -> & Hp1 & Hr1 & Hnd1).
    destruct (IH (S page_num) refs1 w1) as (refs2 & w2 & -> & Hp2 & Hr2 & Hnd2);
      [apply prefix_length in Hp1; lia|exact Hr1|exact Hnd1|].
    exists refs2, w2. split; [reflexivity|].
    split; [etransitivity; eassumption|]. split; assumption.
Qed.

(** X10. The loops only add frames to the store: every frame that was
    there before is there unchanged.  The references in [all_tables] are
    pairwise distinct and each points to a frame made during the run, so
    no two entries share a frame and none is a frame the caller had. *)
Theorem all_tables_are_fresh_and_distinct (pages : list (list grid)) (w : world) :
  exists all_tables w',
    extract_all_tables lower pages w = (Ok all_tables, w')
    /\ (forall r d, store w !! r = Some d -> store w' !! r = Some d)
    /\ Forall (fun r => length (store w) <= r < length (store w')) all_tables
    /\ List.NoDup all_tables.
Proof.
  destruct (process_pages_refs (length (store w)) 1 pages [] w)
    as (refs & w' & H & Hp & Hr & Hnd);
    [lia|constructor|constructor|].
  exists refs, w'. split; [exact H|]. split; [|split; assumption].
  intros r d Hrd. destruct Hp as [k ->]. apply lookup_app_l_Some, Hrd.
Qed.

(** X11. The frames collected from a document are those of its first
    pages followed by those of its last pages: tables are kept in page
    order, whatever the other pages hold. *)
Theorem extract_all_tables_in_page_order (pages1 pages2 : list (list grid)) (w : world) :
  exists all_tables w' all_tables1 w1 all_tables2 w2,
    extract_all_tables lower (pages1 ++ pages2) w = (Ok all_tables, w')
    /\ extract_all_tables lower pages1 w = (Ok all_tables1, w1)
    /\ extract_all_tables lower pages2 w = (Ok all_tables2, w2)
    /\ frames w' all_tables = frames w1 all_tables1 ++ frames w2 all_tables2.
Proof.
  destruct (extract_all_tables_run lower (pages1 ++ pages2) w) as (r & w' & H & Hf).
  destruct (extract_all_tables_run lower pages1 w) as (r1 & w1 & H1 & Hf1).
  destruct (extract_all_tables_run lower pages2 w) as (r2 & w2 & H2 & Hf2).
  exists r, w', r1, w1, r2, w2. repeat split; try assumption.
  rewrite Hf, Hf1, Hf2. apply flat_map_app.
Qed.


End LoopAccounting.


(** ** Sheet names *)

Lemma uint_cps_inj u v : uint_cps u = uint_cps v -> u = v.
Proof.
  revert v. induction u as [|u IH|u IH|u IH|u IH|u IH|u IH|u IH|u IH|u IH|u IH];
    intros v; destruct v; simpl; intros H; try discriminate;
    try reflexivity; injection H as H; f_equal; apply IH, H.
Qed.

Lemma str_nat_inj n m : str_nat n = str_nat m -> n = m.
Proof.
  unfold str_nat. intros H. apply Unsigned.to_uint_inj, uint_cps_inj, H.
Qed.

Lemma sheet_name_whole idx :
  length (str_nat (idx + 1)) <= 25 ->
  sheet_name idx = cps "Sheet_" ++ str_nat (idx + 1).
Proof.
  intros H. unfold sheet_name. apply firstn_all2.
  rewrite length_app. simpl. lia.
Qed.

(** X13. A sheet name is Sheet_ followed by the place of the table,
    counted from 1, cut to 31 characters at most; as long as the place
    has no more than 25 digits nothing is cut, and two tables at
    different places get different names. *)
Theorem sheet_names_are_short_and_distinct :
  (forall idx,
      length (sheet_name idx) <= 31
      /\ firstn 6 (sheet_name idx) = cps "Sheet_")
  /\ (forall i j,
      length (str_nat (i + 1)) <= 25 -> length (str_nat (j + 1)) <= 25 ->
      i <> j -> sheet_name i <> sheet_name j).
Proof.
  split.
  - intros idx. split.
    + unfold sheet_name. apply firstn_le_length.
    + unfold sheet_name. reflexivity.
  - intros i j Hi Hj Hne H.
    rewrite (sheet_name_whole i Hi), (sheet_name_whole j Hj) in H.
    apply app_inv_head, str_nat_inj in H. lia.
Qed.

Lemma sheet_names_are_short_and_distinct_witness :
  sheet_name 0 <> sheet_name 10.
Proof.
  apply (proj2 sheet_names_are_short_and_distinct 0 10).
  - vm_compute. lia.
  - vm_compute. lia.
  - discriminate.
Defined.

(** ** The workbook *)

Section WorkbookProperties.

Variable lower : pystr -> pystr.
Variable path_join : pystr -> pystr -> pystr.
Variable sink_raises : list sink_call -> sink_call -> bool.

(** With every page read, the loop is [process_pages]. *)
Lemma process_extracted_pages_all_read page_num pages all_tables w :
  process_extracted_pages lower page_num (map Some pages) all_tables w
  = match process_pages lower page_num pages all_tables w with
    | (Ok all_tables', w') => (Ok (Some all_tables'), w')
    | (Raise e, w') => (Raise e, w')
    end.
Proof.
  revert page_num all_tables w.
  induction pages as [|tables pages IH]; intros page_num all_tables w.
  - reflexivity.
  - cbn [map process_extracted_pages process_pages]. rewrite !bind_run.
    destruct (process_tables lower page_num 1 tables all_tables w) as [[r1|e] w1];
      [apply IH|reflexivity].
Qed.

(** With a page that cannot be read, the loop gives nothing. *)
Lemma process_extracted_pages_unread page_num pages all_tables w :
  In None pages ->
  exists w', process_extracted_pages lower page_num pages all_tables w = (Ok None, w').
Proof.
  revert page_num all_tables w.
  induction pages as [|page pages IH]; intros page_num all_tables w Hin;
    [destruct Hin|].
  destruct page as [tables|].
  - cbn [process_extracted_pages]. rewrite bind_run.
    destruct (process_tables_account lower page_num 1 tables all_tables w)
      as (r1 & w1 & -> & _).
    apply IH. destruct Hin as [Hin|Hin]; [discriminate|exact Hin].
  - exists w. reflexivity.
Qed.

Lemma frames_nil w refs : frames w refs = [] -> refs = [].
Proof. destruct refs; [reflexivity|discriminate]. Qed.

(** The calls [write_sheets] adds are all [to_excel] calls. *)
Lemma write_sheets_calls w idx all_tables calls notes :
  exists added,
    snd (fst (write_sheets sink_raises w idx all_tables calls notes)) = calls ++ added
    /\ forallb is_to_excel added = true.
Proof.
  revert idx calls notes.
  induction all_tables as [|df rest IH]; intros idx calls notes.
  - exists []. simpl. rewrite app_nil_r. split; reflexivity.
  - cbn [write_sheets].
    destruct (sink_raises calls _).
    + destruct (sink_raises (calls ++ _) _).
      * eexists [_; _]. cbn [fst snd]. rewrite <- app_assoc. split; reflexivity.
      * destruct (IH (S idx)
                    ((calls ++ [ToExcel (deref w df) (Some (sheet_name idx))])
                       ++ [ToExcel (deref w df) None])
                    (notes ++ [SheetNameRejected (sheet_name idx)]))
          as (added & -> & Ha).
        eexists (_ :: _ :: added). rewrite <- !app_assoc.
        split; [reflexivity|exact Ha].
    + destruct (IH (S idx) (calls ++ [ToExcel (deref w df) (Some (sheet_name idx))])
                  notes) as (added & -> & Ha).
      eexists (_ :: added). rewrite <- app_assoc. split; [reflexivity|exact Ha].
Qed.

(** A writer that raises on no call gets every table under its name. *)
Lemma write_sheets_accepted w idx all_tables calls notes :
  (forall h c, sink_raises h c = false) ->
  write_sheets sink_raises w idx all_tables calls notes
  = (true, calls ++ named_sheets idx (frames w all_tables), notes).
Proof.
  intros Hok. revert idx calls.
  induction all_tables as [|df rest IH]; intros idx calls.
  - simpl. rewrite app_nil_r. reflexivity.
  - cbn [write_sheets]. rewrite Hok, IH. simpl. rewrite <- app_assoc. reflexivity.
Qed.

(** X14. A file that cannot be opened, or a page whose tables cannot be
    extracted, loses the whole document: the function returns no path
    and makes no call to the writer, whatever the pages before held. *)
Theorem unread_page_loses_document
    (pages : list (option (list grid))) (basename : pystr)
    (w : world) (calls : list sink_call) :
  In None pages ->
  process_pdf_with_pdfplumber lower path_join sink_raises None basename w calls
  = ([], w, calls, [PdfError])
  /\ exists w',
      process_pdf_with_pdfplumber lower path_join sink_raises
        (Some pages) basename w calls
      = ([], w', calls, [PdfError]).
Proof.
  intros Hin. split; [reflexivity|].
  unfold process_pdf_with_pdfplumber.
  destruct (process_extracted_pages_unread 1 pages [] w Hin) as [w' ->].
  exists w'. reflexivity.
Qed.

(** X15. A document none of whose tables is kept gives no workbook: the
    function returns no path and makes no call to the writer. *)
Theorem no_table_no_workbook
    (pages : list (list grid)) (basename : pystr)
    (w : world) (calls : list sink_call) :
  flat_map (flat_map (table_frames lower)) pages = [] ->
  exists w',
    process_pdf_with_pdfplumber lower path_join sink_raises
      (Some (map Some pages)) basename w calls
    = ([], w', calls, [NoValidTables]).
Proof.
  intros Hnone. unfold process_pdf_with_pdfplumber.
  rewrite process_extracted_pages_all_read.
  destruct (extract_all_tables_run lower pages w) as (refs & w' & Hrun & Hf).
  unfold extract_all_tables in Hrun. rewrite Hrun.
  rewrite Hnone in Hf. apply frames_nil in Hf. subst refs.
  exists w'. reflexivity.
Qed.

(** X16. With a writer that raises on no call, a document with a kept
    table gives one workbook: the function returns its path, and the
    writer was opened on that path, given every kept frame in page and
    table order under the names Sheet_1, Sheet_2, ..., and closed. *)
Theorem workbook_has_one_sheet_per_table
    (pages : list (list grid)) (basename : pystr)
    (w : world) (calls : list sink_call) :
  (forall h c, sink_raises h c = false) ->
  flat_map (flat_map (table_frames lower)) pages <> [] ->
  let excel_path :=
    path_join output_excel_folder (basename ++ cps "_extracted.xlsx") in
  exists w',
    process_pdf_with_pdfplumber lower path_join sink_raises
      (Some (map Some pages)) basename w calls
    = ([excel_path], w',
       calls ++ [OpenWriter excel_path]
         ++ named_sheets 0 (flat_map (flat_map (table_frames lower)) pages)
         ++ [ExitWriter],
       [ExcelSaved excel_path]).
Proof.
  intros Hok Hsome excel_path. unfold process_pdf_with_pdfplumber.
  rewrite process_extracted_pages_all_read.
  destruct (extract_all_tables_run lower pages w) as (refs & w' & Hrun & Hf).
  unfold extract_all_tables in Hrun. rewrite Hrun. rewrite <- Hf in *.
  exists w'. destruct refs as [|r refs]; [exfalso; apply Hsome; reflexivity|].
  unfold save_excel. fold excel_path.
  rewrite Hok, write_sheets_accepted by exact Hok. rewrite Hok.
  rewrite <- !app_assoc. reflexivity.
Qed.

(** X17. Whatever the writer does, the function returns no path or the
    one path of the workbook, and it uses the writer in one of three
    ways: not at all; one call to open it, which raised; or one call to
    open it, then only [to_excel] calls, then the end of the [with]
    block that closes it.  A path is returned only in the last case,
    when neither the opening nor the closing raised. *)
Theorem writer_is_opened_once_and_closed
    (pdf : pdf_source) (basename : pystr) (w : world) (calls : list sink_call) :
  let excel_path :=
    path_join output_excel_folder (basename ++ cps "_extracted.xlsx") in
  let '(paths, _, calls', _) :=
    process_pdf_with_pdfplumber lower path_join sink_raises pdf basename w calls in
  (paths = [] /\ calls' = calls)
  \/ (paths = [] /\ calls' = calls ++ [OpenWriter excel_path]
      /\ sink_raises calls (OpenWriter excel_path) = true)
  \/ (exists sheets,
        calls' = calls ++ [OpenWriter excel_path] ++ sheets ++ [ExitWriter]
        /\ forallb is_to_excel sheets = true
        /\ sink_raises calls (OpenWriter excel_path) = false
        /\ (paths = []
            \/ paths = [excel_path]
               /\ sink_raises (calls ++ [OpenWriter excel_path] ++ sheets) ExitWriter
                  = false)).
Proof.
  intros excel_path. unfold process_pdf_with_pdfplumber.
  destruct pdf as [pages|]; [|left; split; reflexivity].
  destruct (process_extracted_pages lower 1 pages [] w) as [[[refs|]|e] w'];
    try (left; split; reflexivity).
  destruct refs as [|r refs]; [left; split; reflexivity|].
  unfold save_excel. fold excel_path.
  destruct (sink_raises calls (OpenWriter excel_path)) eqn:Hopen.
  - right. left. repeat split.
  - destruct (write_sheets_calls w' 0 (r :: refs) (calls ++ [OpenWriter excel_path]) [])
      as (sheets & Hcalls & Hsheets).
    destruct (write_sheets sink_raises w' 0 (r :: refs)
                (calls ++ [OpenWriter excel_path]) []) as [[ok calls1] notes].
    simpl in Hcalls. subst calls1.
    destruct ok.
    + destruct (sink_raises ((calls ++ [OpenWriter excel_path]) ++ sheets) ExitWriter)
        eqn:Hexit.
      * right. right. exists sheets.
        rewrite <- !app_assoc. repeat split; try assumption. left. reflexivity.
      * right. right. exists sheets.
        rewrite <- !app_assoc. repeat split; try assumption. right.
        split; [reflexivity|]. rewrite <- app_assoc in Hexit. exact Hexit.
    + right. right. exists sheets.
      rewrite <- !app_assoc. repeat split; try assumption. left. reflexivity.
Qed.

End WorkbookProperties.

Lemma unread_page_loses_document_witness :
  exists w',
    process_pdf_with_pdfplumber ascii_lower slash_join (fun _ _ => false)
      (Some [Some [statement_grid]; None]) (cps "may") (mkWorld [] []) []
    = ([], w', [], [PdfError]).
Proof.
  apply (unread_page_loses_document ascii_lower slash_join (fun _ _ => false)
           [Some [statement_grid]; None] (cps "may") (mkWorld [] []) []).
  right. left. reflexivity.
Defined.

Lemma no_table_no_workbook_witness :
  exists w',
    process_pdf_with_pdfplumber ascii_lower slash_join (fun _ _ => false)
      (Some (map Some [[header_only_grid; wide_row_grid]; []]))
      (cps "may") (mkWorld [] []) []
    = ([], w', [], [NoValidTables]).
Proof.
  apply (no_table_no_workbook ascii_lower slash_join (fun _ _ => false)
           [[header_only_grid; wide_row_grid]; []] (cps "may") (mkWorld [] []) []).
  reflexivity.
Defined.

Lemma workbook_has_one_sheet_per_table_witness :
  exists w',
    process_pdf_with_pdfplumber ascii_lower slash_join (fun _ _ => false)
      (Some (map Some [[statement_grid]; [header_only_grid]]))
      (cps "may") (mkWorld [] []) []
    = ([cps "output_files/may_extracted.xlsx"], w',
       [] ++ [OpenWriter (cps "output_files/may_extracted.xlsx")]
         ++ named_sheets 0
              (flat_map (flat_map (table_frames ascii_lower))
                 [[statement_grid]; [header_only_grid]])
         ++ [ExitWriter],
       [ExcelSaved (cps "output_files/may_extracted.xlsx")]).
Proof.
  apply (workbook_has_one_sheet_per_table ascii_lower slash_join (fun _ _ => false)
           [[statement_grid]; [header_only_grid]] (cps "may") (mkWorld [] []) []).
  - reflexivity.
  - discriminate.
Defined.

(** ** Refused sheet names, and [main] *)

Section FallbackProperties.

Variable lower : pystr -> pystr.
Variable path_join : pystr -> pystr -> pystr.
Variable sink_raises : list sink_call -> sink_call -> bool.

Lemma accepted_call_app calls more c :
  accepted_call sink_raises calls c -> accepted_call sink_raises (calls ++ more) c.
Proof.
  intros (before & after & -> & Hok). exists before, (after ++ more).
  split; [|exact Hok]. rewrite <- app_assoc. reflexivity.
Qed.

(** When only named [to_excel] calls can raise, the loop of lines
    152-159 comes to its end and every table has a call that did not
    raise. *)
Lemma write_sheets_fallback w idx all_tables calls notes :
  (forall h c, is_named c = false -> sink_raises h c = false) ->
  exists calls' notes',
    write_sheets sink_raises w idx all_tables calls notes = (true, calls', notes')
    /\ (exists added, calls' = calls ++ added)
    /\ forall df, In df all_tables ->
         exists sheet, accepted_call sink_raises calls' (ToExcel (deref w df) sheet).
Proof.
  intros Hok. revert idx calls notes.
  induction all_tables as [|df rest IH]; intros idx calls notes.
  - exists calls, notes. split; [reflexivity|]. split.
    + exists []. rewrite app_nil_r. reflexivity.
    + intros df [].
  - cbn [write_sheets].
    set (named := ToExcel (deref w df) (Some (sheet_name idx))).
    set (unnamed := ToExcel (deref w df) None).
    destruct (sink_raises calls named) eqn:Hnamed.
    + rewrite (Hok (calls ++ [named]) unnamed eq_refl).
      destruct (IH (S idx) ((calls ++ [named]) ++ [unnamed])
                  (notes ++ [SheetNameRejected (sheet_name idx)]))
        as (calls' & notes' & -> & (added & ->) & Hall).
      exists (((calls ++ [named]) ++ [unnamed]) ++ added), notes'.
      split; [reflexivity|]. split.
      * exists ([named; unnamed] ++ added). rewrite <- !app_assoc. reflexivity.
      * intros r [<-|Hr]; [|apply Hall, Hr].
        exists None. exists (calls ++ [named]), added. split.
        -- rewrite <- !app_assoc. reflexivity.
        -- apply Hok. reflexivity.
    + destruct (IH (S idx) (calls ++ [named]) notes)
        as (calls' & notes' & -> & (added & ->) & Hall).
      exists ((calls ++ [named]) ++ added), notes'.
      split; [reflexivity|]. split.
      * exists (named :: added). rewrite <- app_assoc. reflexivity.
      * intros r [<-|Hr]; [|apply Hall, Hr].
        exists (Some (sheet_name idx)). exists calls, added. split.
        -- rewrite <- app_assoc. reflexivity.
        -- exact Hnamed.
Qed.

(** The paths [process_pdf_with_pdfplumber] returns: none, or the path
    of the workbook. *)
Lemma process_pdf_paths pdf basename w calls :
  let paths :=
    fst (fst (fst (process_pdf_with_pdfplumber lower path_join sink_raises
                     pdf basename w calls))) in
  paths = []
  \/ paths = [path_join output_excel_folder (basename ++ cps "_extracted.xlsx")].
Proof.
  unfold process_pdf_with_pdfplumber.
  destruct pdf as [pages|]; [|left; reflexivity].
  destruct (process_extracted_pages lower 1 pages [] w) as [[[refs|]|e] w'];
    try (left; reflexivity).
  destruct refs as [|r refs]; [left; reflexivity|].
  unfold save_excel.
  destruct (sink_raises calls _); [left; reflexivity|].
  destruct (write_sheets sink_raises w' 0 (r :: refs) _ []) as [[[|] calls1] notes];
    [|left; reflexivity].
  destruct (sink_raises calls1 ExitWriter); [left|right]; reflexivity.
Qed.

(** X18. A sheet name the writer refuses costs neither the table nor
    the workbook: when only [to_excel] calls with a sheet name can
    raise, a document with a kept table still gives its workbook path,
    and for every kept frame a [to_excel] call was made that did not
    raise. *)
Theorem refused_sheet_name_keeps_table
    (pages : list (list grid)) (basename : pystr)
    (w : world) (calls : list sink_call) :
  (forall h c, is_named c = false -> sink_raises h c = false) ->
  flat_map (flat_map (table_frames lower)) pages <> [] ->
  exists w' calls' notes,
    process_pdf_with_pdfplumber lower path_join sink_raises
      (Some (map Some pages)) basename w calls
    = ([path_join output_excel_folder (basename ++ cps "_extracted.xlsx")],
       w', calls', notes)
    /\ forall d, In d (flat_map (flat_map (table_frames lower)) pages) ->
         exists sheet, accepted_call sink_raises calls' (ToExcel d sheet).
Proof.
  intros Hok Hsome. unfold process_pdf_with_pdfplumber.
  rewrite process_extracted_pages_all_read.
  destruct (extract_all_tables_run lower pages w) as (refs & w' & Hrun & Hf).
  unfold extract_all_tables in Hrun. rewrite Hrun. rewrite <- Hf in *.
  destruct refs as [|r refs]; [exfalso; apply Hsome; reflexivity|].
  unfold save_excel. rewrite (Hok calls (OpenWriter _) eq_refl).
  destruct (write_sheets_fallback w' 0 (r :: refs)
              (calls ++ [OpenWriter (path_join output_excel_folder
                                       (basename ++ cps "_extracted.xlsx"))]) [] Hok)
    as (calls1 & notes1 & -> & _ & Hall).
  rewrite (Hok calls1 ExitWriter eq_refl).
  eexists w', _, _. split; [reflexivity|].
  intros d Hd. unfold frames in Hd. apply in_map_iff in Hd.
  destruct Hd as (df & <- & Hdf). destruct (Hall df Hdf) as [sheet Hs].
  exists sheet. apply accepted_call_app, Hs.
Qed.

Variable splitext : pystr -> pystr * pystr.
Variable read_pdf : pystr -> pdf_source.

Lemma process_files_paths files processed_files w calls notes :
  exists added,
    fst (fst (fst (process_files lower path_join sink_raises splitext read_pdf
                     files processed_files w calls notes)))
    = processed_files ++ added
    /\ added `sublist_of` map (workbook_path path_join splitext) files.
Proof.
  revert processed_files w calls notes.
  induction files as [|fname files IH]; intros processed_files w calls notes.
  - exists []. simpl. rewrite app_nil_r. split; [reflexivity|constructor].
  - cbn [process_files map].
    pose proof (process_pdf_paths (read_pdf (path_join input_folder fname))
                  (fst (splitext fname)) w calls) as Hpaths.
    destruct (process_pdf_with_pdfplumber lower path_join sink_raises
                (read_pdf (path_join input_folder fname))
                (fst (splitext fname)) w calls) as [[[result w'] calls'] notes'].
    simpl in Hpaths. destruct Hpaths as [->| ->].
    + destruct (IH processed_files w' calls' (notes ++ notes')) as (added & -> & Hs).
      exists added. split; [reflexivity|]. apply sublist_cons, Hs.
    + destruct (IH (processed_files ++ [workbook_path path_join splitext fname])
                  w' calls' (notes ++ notes')) as (added & Hrun & Hs).
      exists (workbook_path path_join splitext fname :: added). split.
      * unfold workbook_path in *. rewrite Hrun, <- app_assoc. reflexivity.
      * apply sublist_skip, Hs.
Qed.

(** X19. [main] gives at most one workbook for every file of the folder
    whose lower-cased name ends in .pdf, in the order of the listing,
    and none for any other file: [processed_files] is made of workbook
    paths of these files, each at most once and in their order; it is
    empty when the folder does not exist. *)
Theorem main_one_workbook_per_pdf
    (listing : option (list pystr)) (w : world) (calls : list sink_call) :
  fst (fst (fst (main lower path_join sink_raises splitext read_pdf listing w calls)))
  `sublist_of`
  map (workbook_path path_join splitext)
    (List.filter (fun f => endswith (cps ".pdf") (lower f)) (default [] listing)).
Proof.
  unfold main. destruct listing as [names|]; [|constructor].
  cbv [from_option id].
  destruct (List.filter _ names) as [|f files] eqn:E; [constructor|].
  destruct (process_files_paths (f :: files) [] w calls []) as (added & -> & Hs).
  exact Hs.
Qed.

End FallbackProperties.

Lemma refused_sheet_name_keeps_table_witness :
  exists w' calls' notes,
    process_pdf_with_pdfplumber ascii_lower slash_join (fun _ c => is_named c)
      (Some (map Some [[statement_grid]])) (cps "may") (mkWorld [] []) []
    = ([cps "output_files/may_extracted.xlsx"], w', calls', notes)
    /\ forall d, In d (flat_map (flat_map (table_frames ascii_lower)) [[statement_grid]]) ->
         exists sheet, accepted_call (fun _ c => is_named c) calls' (ToExcel d sheet).
Proof.
  apply (refused_sheet_name_keeps_table ascii_lower slash_join (fun _ c => is_named c)
           [[statement_grid]] (cps "may") (mkWorld [] []) []).
  - intros h c Hc. exact Hc.
  - discriminate.
Defined.
